(** * Buddha Pages: the meditation timer of [script.js]

    A shallow embedding of the countdown timer of [script.js]: the timer
    state object, its functions, the event handlers that call them and the
    host they talk to (clock, interval timers, audio context, the three
    text nodes).  Two sibling versions of the file kept in the repository
    are embedded as far as they differ in what is proved: the [tick] that
    checks [isRunning] and the [stopTimer] that recomputes [remaining].

    Numbers: every number the timer stores is an integer far below 2^53
    (seconds up to a few thousand, millisecond time stamps), where the
    double arithmetic of JavaScript is exact, so numbers are [Z].
    [Math.floor (a / b)] is [Z.div], [a % b] is [Z.rem] (sign of the
    dividend), [Math.ceil (a / 1000)] is [ceil_div a 1000]. *)

From Stdlib Require Import ZArith List Bool String Lia.
From Stdlib Require Import DecimalString QArith Qround Sorted.
Import ListNotations.
Local Open Scope Z_scope.

(** ** JavaScript helpers *)

Module Js.

(** [Math.ceil (a / b)] on integers, [b > 0]. *)
Definition ceil_div (a b : Z) : Z := - ((- a) / b).

(** [null] used as a number is [0]: [null - now] is [- now]. *)
Definition to_number (v : option Z) : Z :=
  match v with
  | Some n => n
  | None => 0
  end.

(** A number used as a condition: [null] and [0] are falsy. *)
Definition truthy (v : option Z) : bool :=
  match v with
  | Some n => negb (n =? 0)
  | None => false
  end.

(** [n.toString ()] for an integer. *)
Definition toString (n : Z) : string := NilZero.string_of_int (Z.to_int n).

Fixpoint repeat_char (c : string) (n : nat) : string :=
  match n with
  | O => EmptyString
  | S k => c ++ repeat_char c k
  end.

(** [s.padStart (len, c)] for a one-character [c]. *)
Definition padStart (len : nat) (c : string) (s : string) : string :=
  repeat_char c (len - String.length s) ++ s.

End Js.

(** ** The host: audio, timers, the document *)

(** [AudioContext.state]; Safari adds 'interrupted'.  The code only tests
    for 'suspended'. *)
Inductive ContextState := CtxSuspended | CtxRunning | CtxInterrupted.

Definition is_suspended (st : ContextState) : bool :=
  match st with
  | CtxSuspended => true
  | _ => false
  end.

Record AudioContext := mkCtx { state : ContextState }.

(** One oscillator of the bell: its frequency and when it starts and stops,
    in milliseconds after the context's [currentTime] at its creation. *)
Record Oscillator := mkOsc { frequency : Z; startMs : Z; stopMs : Z }.

(** An [<audio>] element made by [new Audio (url)]. *)
Record AudioElement := mkAudio { src : string; loops : bool;
                                 volumePercent : Z }.

(** The looping near-silent buffer source behind [keepAliveAudio]. *)
Record KeepAlive := mkKeepAlive { loop : bool; gainPercent : Z }.

(** What the page asks of the host, newest first. *)
Inductive HostCall :=
| NewAudioContext
| CtxResume
| CtxResumeThenBellTones
| BellTones (oscillators : list Oscillator)
| ScheduledTones (oscillators : list Oscillator)
| OscillatorStop (o : Oscillator)
| KeepAliveStart
| KeepAliveStop
| SetInterval (h : positive)
| ClearInterval (h : positive)
| ElementPlay (src : string)
| ElementPause (src : string)
| ElementUnload (src : string)
| ElementOnEnded (src : string)
| RevokeObjectURL (url : string).

Inductive JsError := TypeError.

(** ** The timer state ([timerState], script.js 27-36) *)

Record TimerState := mkTimer {
  duration : Z;
  remaining : Z;
  endTime : option Z;
  isRunning : bool;
  interval : option positive;
  audioContext : option AudioContext;
  keepAliveAudio : option KeepAlive;
  scheduledBell : option (list Oscillator)
}.

Definition timerState0 : TimerState :=
  mkTimer (10 * 60) (10 * 60) None false None None None None.

(** The page: the timer object, the clock [Date.now ()] reads, the text of
    the three elements the timer writes, the live interval timers of the
    host, and whether the host has an [AudioContext] constructor (and the
    state a new context starts in). *)
Record Page := mkPage {
  timer : TimerState;
  clock : Z;
  minutesText : string;
  secondsText : string;
  toggleText : string;
  liveTimers : list positive;
  nextHandle : positive;
  audioCtor : option ContextState;
  calls : list HostCall
}.

Definition page0 (ctor : option ContextState) : Page :=
  mkPage timerState0 0 "10" "00" "Start" [] 1%positive ctor [].

(** Field updates. *)
Definition with_timer (f : TimerState -> TimerState) (p : Page) : Page :=
  mkPage (f (timer p)) (clock p) (minutesText p) (secondsText p)
         (toggleText p) (liveTimers p) (nextHandle p) (audioCtor p) (calls p).

Definition set_duration (v : Z) (t : TimerState) : TimerState :=
  mkTimer v (remaining t) (endTime t) (isRunning t) (interval t)
          (audioContext t) (keepAliveAudio t) (scheduledBell t).
Definition set_remaining (v : Z) (t : TimerState) : TimerState :=
  mkTimer (duration t) v (endTime t) (isRunning t) (interval t)
          (audioContext t) (keepAliveAudio t) (scheduledBell t).
Definition set_endTime (v : option Z) (t : TimerState) : TimerState :=
  mkTimer (duration t) (remaining t) v (isRunning t) (interval t)
          (audioContext t) (keepAliveAudio t) (scheduledBell t).
Definition set_isRunning (v : bool) (t : TimerState) : TimerState :=
  mkTimer (duration t) (remaining t) (endTime t) v (interval t)
          (audioContext t) (keepAliveAudio t) (scheduledBell t).
Definition set_interval (v : option positive) (t : TimerState) : TimerState :=
  mkTimer (duration t) (remaining t) (endTime t) (isRunning t) v
          (audioContext t) (keepAliveAudio t) (scheduledBell t).
Definition set_audioContext (v : option AudioContext) (t : TimerState)
  : TimerState :=
  mkTimer (duration t) (remaining t) (endTime t) (isRunning t) (interval t)
          v (keepAliveAudio t) (scheduledBell t).
Definition set_keepAliveAudio (v : option KeepAlive) (t : TimerState)
  : TimerState :=
  mkTimer (duration t) (remaining t) (endTime t) (isRunning t) (interval t)
          (audioContext t) v (scheduledBell t).
Definition set_scheduledBell (v : option (list Oscillator)) (t : TimerState)
  : TimerState :=
  mkTimer (duration t) (remaining t) (endTime t) (isRunning t) (interval t)
          (audioContext t) (keepAliveAudio t) v.

Definition set_clock (now : Z) (p : Page) : Page :=
  mkPage (timer p) now (minutesText p) (secondsText p) (toggleText p)
         (liveTimers p) (nextHandle p) (audioCtor p) (calls p).
Definition set_display (m s : string) (p : Page) : Page :=
  mkPage (timer p) (clock p) m s (toggleText p) (liveTimers p)
         (nextHandle p) (audioCtor p) (calls p).
Definition set_toggleText (s : string) (p : Page) : Page :=
  mkPage (timer p) (clock p) (minutesText p) (secondsText p) s
         (liveTimers p) (nextHandle p) (audioCtor p) (calls p).
Definition set_liveTimers (l : list positive) (n : positive) (p : Page)
  : Page :=
  mkPage (timer p) (clock p) (minutesText p) (secondsText p) (toggleText p)
         l n (audioCtor p) (calls p).
Definition log_call (c : HostCall) (p : Page) : Page :=
  mkPage (timer p) (clock p) (minutesText p) (secondsText p) (toggleText p)
         (liveTimers p) (nextHandle p) (audioCtor p) (c :: calls p).

(** ** A state and exception monad for the page's functions

    A function either returns or throws; what it wrote before it threw
    stays written.  [S] is the page the functions work on. *)

Inductive Outcome (A : Type) :=
| Returned (a : A)
| Thrown (e : JsError).
Arguments Returned {A} a.
Arguments Thrown {A} e.

Section Monad.

Context {S : Type}.

Definition M (A : Type) : Type := S -> Outcome A * S.

Definition ret {A} (a : A) : M A := fun p => (Returned a, p).

Definition bind {A B} (m : M A) (f : A -> M B) : M B :=
  fun p =>
    match m p with
    | (Returned a, p') => f a p'
    | (Thrown e, p') => (Thrown e, p')
    end.

Definition throw {A} (e : JsError) : M A := fun p => (Thrown e, p).

(** [try { m } catch (e) {}] *)
Definition try_ignore (m : M unit) : M unit :=
  fun p =>
    match m p with
    | (Returned a, p') => (Returned a, p')
    | (Thrown _, p') => (Returned tt, p')
    end.

Definition get : M S := fun p => (Returned p, p).
Definition modify (f : S -> S) : M unit := fun p => (Returned tt, f p).
Definition skip : M unit := ret tt.

(** State after a call, and how the call ended. *)
Definition exec {A} (m : M A) (p : S) : S := snd (m p).
Definition returns {A} (m : M A) (p : S) : bool :=
  match fst (m p) with
  | Returned _ => true
  | Thrown _ => false
  end.

End Monad.
Arguments M S A : clear implicits.

Declare Scope js_scope.
Delimit Scope js_scope with js.
Notation "x <- m ;; k" := (bind m (fun x => k))
  (at level 61, m at next level, right associativity) : js_scope.
Notation "m ;; k" := (bind m (fun _ => k))
  (at level 61, right associativity) : js_scope.
Local Open Scope js_scope.

Fixpoint forEach {S A} (f : A -> M S unit) (l : list A) : M S unit :=
  match l with
  | [] => skip
  | a :: r => f a ;; forEach f r
  end.

(** The functions of script.js work on [Page]. *)
Definition update (f : TimerState -> TimerState) : M Page unit :=
  modify (with_timer f).
Definition host (c : HostCall) : M Page unit := modify (log_call c).

(** ** Host functions *)

Definition Date_now : M Page Z := fun p => (Returned (clock p), p).

(** [setInterval (tick, 1000)]: a fresh handle, greater than zero (so a
    stored handle is truthy), added to the live timers. *)
Definition setInterval : M Page positive :=
  p <- get ;;
  let h := nextHandle p in
  modify (set_liveTimers (h :: liveTimers p) (Pos.succ h)) ;;
  host (SetInterval h) ;;
  ret h.

Definition clearInterval (h : positive) : M Page unit :=
  modify (fun p =>
            set_liveTimers (remove Pos.eq_dec h (liveTimers p))
                           (nextHandle p) p) ;;
  host (ClearInterval h).

(** [new (window.AudioContext || window.webkitAudioContext) ()]: without a
    constructor, [new undefined ()] throws a TypeError. *)
Definition newAudioContext : M Page AudioContext :=
  p <- get ;;
  match audioCtor p with
  | None => throw TypeError
  | Some st => host NewAudioContext ;; ret (mkCtx st)
  end.

(** ** The functions of script.js *)

(** script.js 47-52 *)
Definition updateDisplay : M Page unit :=
  p <- get ;;
  let mins := remaining (timer p) / 60 in
  let secs := Z.rem (remaining (timer p)) 60 in
  modify (set_display (Js.padStart 2 "0" (Js.toString mins))
                      (Js.padStart 2 "0" (Js.toString secs))).

(** script.js 54-61 *)
Definition initAudio : M Page unit :=
  p <- get ;;
  match audioContext (timer p) with
  | None =>
      ctx <- newAudioContext ;;
      update (set_audioContext (Some ctx))
  | Some _ => skip
  end ;;
  p <- get ;;
  match audioContext (timer p) with
  | Some ctx => if is_suspended (state ctx) then host CtxResume else skip
  | None => throw TypeError
  end.

(** script.js 65-92 *)
Definition startKeepAlive : M Page unit :=
  p <- get ;;
  match keepAliveAudio (timer p) with
  | Some _ => skip
  | None =>
      match audioContext (timer p) with
      | None => skip
      | Some ctx =>
          host KeepAliveStart ;;
          update (set_keepAliveAudio (Some (mkKeepAlive true 1)))
      end
  end.

(** script.js 94-101 *)
Definition stopKeepAlive : M Page unit :=
  p <- get ;;
  match keepAliveAudio (timer p) with
  | Some _ =>
      try_ignore (host KeepAliveStop) ;;
      update (set_keepAliveAudio None)
  | None => skip
  end.

(** The three tones of the bell, each [index * 0.1] s after [base] and
    sounding for 4 s. *)
Definition frequencies : list Z := [528; 396; 639].

Fixpoint tones (base : Z) (index : Z) (freqs : list Z) : list Oscillator :=
  match freqs with
  | [] => []
  | freq :: r =>
      let startTime := base + index * 100 in
      mkOsc freq startTime (startTime + 4000) :: tones base (index + 1) r
  end.

(** script.js 140-147 *)
Definition cancelScheduledBell : M Page unit :=
  p <- get ;;
  match scheduledBell (timer p) with
  | Some oscillators =>
      forEach (fun osc => try_ignore (host (OscillatorStop osc)))
              oscillators ;;
      update (set_scheduledBell None)
  | None => skip
  end.

(** script.js 106-138 *)
Definition scheduleBell : M Page unit :=
  p <- get ;;
  match audioContext (timer p) with
  | None => skip
  | Some ctx =>
      cancelScheduledBell ;;
      p <- get ;;
      let bellTime := remaining (timer p) * 1000 in
      let oscillators := tones bellTime 0 frequencies in
      host (ScheduledTones oscillators) ;;
      update (set_scheduledBell (Some oscillators))
  end.

(** script.js 160-183 *)
Definition _playBellTones (ctx : AudioContext) : M Page unit :=
  host (BellTones (tones 0 0 frequencies)).

(** script.js 149-158 *)
Definition playBellNow : M Page unit :=
  p <- get ;;
  match audioContext (timer p) with
  | None => skip
  | Some ctx =>
      if is_suspended (state ctx)
      then host CtxResumeThenBellTones
      else _playBellTones ctx
  end.

(** [if (timerState.interval) { clearInterval (...); interval = null }] *)
Definition clearHeartbeat : M Page unit :=
  p <- get ;;
  match interval (timer p) with
  | Some h => clearInterval h ;; update (set_interval None)
  | None => skip
  end.

(** script.js 185-205 *)
Definition tick : M Page unit :=
  now <- Date_now ;;
  update (fun t =>
            set_remaining
              (Z.max 0 (Js.ceil_div (Js.to_number (endTime t) - now) 1000))
              t) ;;
  updateDisplay ;;
  p <- get ;;
  if remaining (timer p) <=? 0 then
    update (set_isRunning false) ;;
    modify (set_toggleText "Start") ;;
    clearHeartbeat ;;
    stopKeepAlive ;;
    playBellNow ;;
    update (set_scheduledBell None) ;;
    update (fun t => set_remaining (duration t) t) ;;
    updateDisplay
  else skip.

(** script.js 207-221 *)
Definition startTimer : M Page unit :=
  initAudio ;;
  update (set_isRunning true) ;;
  now <- Date_now ;;
  update (fun t => set_endTime (Some (now + remaining t * 1000)) t) ;;
  modify (set_toggleText "Pause") ;;
  startKeepAlive ;;
  scheduleBell ;;
  h <- setInterval ;;
  update (set_interval (Some h)).

(** script.js 223-233 *)
Definition stopTimer : M Page unit :=
  update (set_isRunning false) ;;
  update (set_endTime None) ;;
  modify (set_toggleText "Start") ;;
  clearHeartbeat ;;
  cancelScheduledBell ;;
  stopKeepAlive.

(** script.js 243-269 *)
Definition adjustTime (type : string) (delta : Z) : M Page unit :=
  p <- get ;;
  if isRunning (timer p) then skip
  else
    let mins := duration (timer p) / 60 in
    let secs := Z.rem (duration (timer p)) 60 in
    let '(mins, secs) :=
      if String.eqb type "min" then
        (Z.max 0 (Z.min 60 (mins + delta)), secs)
      else
        let secs := secs + delta in
        if 60 <=? secs then (Z.min 60 (mins + 1), 0)
        else if secs <? 0 then (Z.max 0 (mins - 1), 55)
        else (mins, secs) in
    let newDuration := mins * 60 + secs in
    if 5 <=? newDuration then
      update (set_duration newDuration) ;;
      update (set_remaining newDuration) ;;
      updateDisplay
    else skip.

(** script.js 271-275 *)
Definition resetTimer : M Page unit :=
  stopTimer ;;
  update (fun t => set_remaining (duration t) t) ;;
  updateDisplay.

(** ** Event handlers (script.js 236-241, 277-289) and the event loop *)

Definition onVisibilityChange (visible : bool) : M Page unit :=
  p <- get ;;
  if visible && isRunning (timer p) then initAudio ;; tick else skip.

Definition onToggleClick : M Page unit :=
  p <- get ;;
  if isRunning (timer p) then stopTimer else startTimer.

Inductive Event :=
| ToggleClick
| ResetClick
| MinUpClick
| MinDownClick
| SecUpClick
| SecDownClick
| IntervalFire (h : positive)
| VisibilityChange (visible : bool)
| AudioStateChange (st : ContextState).

(** The host changes the state of the audio context (screen lock, an
    interruption, a resume that completes). *)
Definition hostAudioState (st : ContextState) : M Page unit :=
  update (fun t =>
            match audioContext t with
            | Some _ => set_audioContext (Some (mkCtx st)) t
            | None => t
            end).

(** The callback of an interval timer runs only while its handle is live:
    [clearInterval] removes it for good. *)
Definition handler (ev : Event) : M Page unit :=
  match ev with
  | ToggleClick => onToggleClick
  | ResetClick => resetTimer
  | MinUpClick => adjustTime "min" 1
  | MinDownClick => adjustTime "min" (-1)
  | SecUpClick => adjustTime "sec" 5
  | SecDownClick => adjustTime "sec" (-5)
  | IntervalFire h =>
      p <- get ;;
      if in_dec Pos.eq_dec h (liveTimers p) then tick else skip
  | VisibilityChange visible => onVisibilityChange visible
  | AudioStateChange st => hostAudioState st
  end.

(** One turn of the event loop at host time [now]; an exception ends the
    handler and leaves what it wrote. *)
Definition dispatch (now : Z) (ev : Event) (p : Page) : Page :=
  exec (handler ev) (set_clock now p).

Fixpoint run (evs : list (Z * Event)) (p : Page) : Page :=
  match evs with
  | [] => p
  | (now, ev) :: r => run r (dispatch now ev p)
  end.

Inductive reachable : Page -> Prop :=
| reachable_load (ctor : option ContextState) : reachable (page0 ctor)
| reachable_dispatch (p : Page) (now : Z) (ev : Event) :
    reachable p -> reachable (dispatch now ev p).

(** ** Definitions used by the properties of script.js *)

(** The value [tick] and the variants' [stopTimer] give [remaining]. *)
Definition time_left (end_ : option Z) (now : Z) : Z :=
  Z.max 0 (Js.ceil_div (Js.to_number end_ - now) 1000).

(** A call of [playBellNow] that reaches the audio context leaves one of
    these two requests. *)
Definition is_bell (c : HostCall) : bool :=
  match c with
  | BellTones _ | CtxResumeThenBellTones => true
  | _ => false
  end.

(** How many requests for the bell a log holds, and a page's log. *)
Definition bell_requests (cs : list HostCall) : nat :=
  List.length (filter is_bell cs).

Definition bells (p : Page) : nat := bell_requests (calls p).

(** [p] with the calls [cs] logged on top of its own. *)
Definition log_calls (cs : list HostCall) (p : Page) : Page :=
  mkPage (timer p) (clock p) (minutesText p) (secondsText p) (toggleText p)
         (liveTimers p) (nextHandle p) (audioCtor p) (cs ++ calls p).

(** The invariant of the page between two events: the duration within
    0:05 and 60:55 on the 5-second grid, at least a second remaining, the
    host's live interval timers exactly the stored handle, a running timer
    with its end time, heartbeat and audio context, an idle one without
    heartbeat. *)
Record wf (p : Page) : Prop := mkWf {
  wf_duration : 5 <= duration (timer p) <= 3655;
  wf_grid : duration (timer p) mod 5 = 0;
  wf_remaining : 1 <= remaining (timer p);
  wf_timers :
    liveTimers p = match interval (timer p) with
                   | Some h => [h]
                   | None => []
                   end;
  wf_running :
    isRunning (timer p) = true ->
    endTime (timer p) <> None /\ interval (timer p) <> None
    /\ audioContext (timer p) <> None;
  wf_idle : isRunning (timer p) = false -> interval (timer p) = None
}.

(** The sources that re-evaluate the timer, and the host changing the
    state of the audio context; the clicks of the user are not among
    them. *)
Definition is_trigger (ev : Event) : bool :=
  match ev with
  | IntervalFire _ | VisibilityChange _ | AudioStateChange _ => true
  | _ => false
  end.

(** The event makes its handler call [tick] on page [p]. *)
Definition calls_tick (p : Page) (ev : Event) : bool :=
  match ev with
  | IntervalFire h =>
      if in_dec Pos.eq_dec h (liveTimers p) then true else false
  | VisibilityChange visible => visible && isRunning (timer p)
  | _ => false
  end.

(** How often the timer leaves Running along the events. *)
Fixpoint stops (evs : list (Z * Event)) (p : Page) : nat :=
  match evs with
  | [] => 0
  | (now, ev) :: r =>
      let q := dispatch now ev p in
      ((if isRunning (timer p) && negb (isRunning (timer q)) then 1 else 0)
       + stops r q)%nat
  end.

(** The clicks that bring the default 10:00 to 60:00 and to 0:05. *)
Definition clicks (n : nat) (ev : Event) : list (Z * Event) :=
  repeat (0, ev) n.

(** An idle page showing [d] seconds. *)
Definition idle_with (d : Z) : Page :=
  with_timer (fun t => set_remaining d (set_duration d t)) (page0 None).

(** A page that has just been started. *)
Definition started_page : Page :=
  dispatch 0 ToggleClick (page0 (Some CtxRunning)).

(** A run that is paused after one tick: idle, 9:59 left of 10:00. *)
Definition paused_page : Page :=
  run [(0, ToggleClick); (1000, IntervalFire 1); (1500, ToggleClick)]
      (page0 (Some CtxRunning)).

(** A run whose first tick comes 4 ms late. *)
Definition late_tick_page : Page :=
  run [(0, ToggleClick); (1004, IntervalFire 1)] (page0 (Some CtxRunning)).

(** ** The variant with an [<audio>] keep-alive (unnamed part_002, first file)

    Its [tick] (248-267) is the one of script.js behind a check of
    [isRunning]; the bell is a pre-rendered WAV played by an element. *)

Module KeepAliveWav.

Record TimerState := mkTimer {
  duration : Z;
  remaining : Z;
  endTime : option Z;
  isRunning : bool;
  interval : option positive;
  silentWavUrl : option string;
  keepAliveEl : option AudioElement;
  bellWavUrl : option string;
  bellEl : option AudioElement;
  bellReady : bool
}.

Record Page := mkPage {
  timer : TimerState;
  clock : Z;
  minutesText : string;
  secondsText : string;
  toggleText : string;
  liveTimers : list positive;
  audioCtor : option ContextState;
  calls : list HostCall
}.

Definition with_timer (f : TimerState -> TimerState) (p : Page) : Page :=
  mkPage (f (timer p)) (clock p) (minutesText p) (secondsText p)
         (toggleText p) (liveTimers p) (audioCtor p) (calls p).
Definition set_remaining (v : Z) (t : TimerState) : TimerState :=
  mkTimer (duration t) v (endTime t) (isRunning t) (interval t)
          (silentWavUrl t) (keepAliveEl t) (bellWavUrl t) (bellEl t)
          (bellReady t).
Definition set_isRunning (v : bool) (t : TimerState) : TimerState :=
  mkTimer (duration t) (remaining t) (endTime t) v (interval t)
          (silentWavUrl t) (keepAliveEl t) (bellWavUrl t) (bellEl t)
          (bellReady t).
Definition set_interval (v : option positive) (t : TimerState) : TimerState :=
  mkTimer (duration t) (remaining t) (endTime t) (isRunning t) v
          (silentWavUrl t) (keepAliveEl t) (bellWavUrl t) (bellEl t)
          (bellReady t).
Definition set_keepAliveEl (v : option AudioElement) (t : TimerState)
  : TimerState :=
  mkTimer (duration t) (remaining t) (endTime t) (isRunning t) (interval t)
          (silentWavUrl t) v (bellWavUrl t) (bellEl t) (bellReady t).
Definition set_bellEl (v : option AudioElement) (t : TimerState)
  : TimerState :=
  mkTimer (duration t) (remaining t) (endTime t) (isRunning t) (interval t)
          (silentWavUrl t) (keepAliveEl t) (bellWavUrl t) v (bellReady t).
Definition set_display (m s : string) (p : Page) : Page :=
  mkPage (timer p) (clock p) m s (toggleText p) (liveTimers p)
         (audioCtor p) (calls p).
Definition set_toggleText (s : string) (p : Page) : Page :=
  mkPage (timer p) (clock p) (minutesText p) (secondsText p) s
         (liveTimers p) (audioCtor p) (calls p).
Definition set_liveTimers (l : list positive) (p : Page) : Page :=
  mkPage (timer p) (clock p) (minutesText p) (secondsText p) (toggleText p)
         l (audioCtor p) (calls p).
Definition set_clock (now : Z) (p : Page) : Page :=
  mkPage (timer p) now (minutesText p) (secondsText p) (toggleText p)
         (liveTimers p) (audioCtor p) (calls p).
Definition log_call (c : HostCall) (p : Page) : Page :=
  mkPage (timer p) (clock p) (minutesText p) (secondsText p) (toggleText p)
         (liveTimers p) (audioCtor p) (c :: calls p).

Definition update (f : TimerState -> TimerState) : M Page unit :=
  modify (with_timer f).
Definition host (c : HostCall) : M Page unit := modify (log_call c).
Definition Date_now : M Page Z := fun p => (Returned (clock p), p).

Definition clearInterval (h : positive) : M Page unit :=
  modify (fun p => set_liveTimers (remove Pos.eq_dec h (liveTimers p)) p) ;;
  host (ClearInterval h).

Definition newAudioContext : M Page AudioContext :=
  p <- get ;;
  match audioCtor p with
  | None => throw TypeError
  | Some st => host NewAudioContext ;; ret (mkCtx st)
  end.

(** part_002 49-54 *)
Definition updateDisplay : M Page unit :=
  p <- get ;;
  let mins := remaining (timer p) / 60 in
  let secs := Z.rem (remaining (timer p)) 60 in
  modify (set_display (Js.padStart 2 "0" (Js.toString mins))
                      (Js.padStart 2 "0" (Js.toString secs))).

(** part_002 201-208 *)
Definition stopKeepAlive : M Page unit :=
  p <- get ;;
  match keepAliveEl (timer p) with
  | Some el =>
      host (ElementPause (src el)) ;;
      host (ElementUnload (src el)) ;;
      update (set_keepAliveEl None)
  | None => skip
  end.

(** part_002 212-244 *)
Definition playBell : M Page unit :=
  p <- get ;;
  match bellEl (timer p) with
  | Some el =>
      host (ElementPlay (src el)) ;;
      update (set_bellEl None)
  | None =>
      match bellWavUrl (timer p) with
      | Some url => host (ElementPlay url)
      | None =>
          try_ignore (ctx <- newAudioContext ;;
                      host (BellTones (tones 0 0 frequencies)))
      end
  end.

Definition clearHeartbeat : M Page unit :=
  p <- get ;;
  match interval (timer p) with
  | Some h => clearInterval h ;; update (set_interval None)
  | None => skip
  end.

(** part_002 248-267 *)
Definition tick : M Page unit :=
  p <- get ;;
  if negb (isRunning (timer p)) then skip
  else
    now <- Date_now ;;
    update (fun t =>
              set_remaining
                (Z.max 0 (Js.ceil_div (Js.to_number (endTime t) - now) 1000))
                t) ;;
    updateDisplay ;;
    p <- get ;;
    if remaining (timer p) <=? 0 then
      update (set_isRunning false) ;;
      modify (set_toggleText "Start") ;;
      clearHeartbeat ;;
      stopKeepAlive ;;
      playBell ;;
      update (fun t => set_remaining (duration t) t) ;;
      updateDisplay
    else skip.

(** [tick ()] called at each host time of [nows], by whatever source. *)
Fixpoint ticks (nows : list Z) (p : Page) : Page :=
  match nows with
  | [] => p
  | now :: r => ticks r (exec tick (set_clock now p))
  end.

(** A call of [playBell] that finds a way to ring leaves one of these. *)
Definition is_ring (c : HostCall) : bool :=
  match c with
  | ElementPlay _ | BellTones _ => true
  | _ => false
  end.

Definition rings (p : Page) : nat := List.length (filter is_ring (calls p)).

(** The bell element, the rendered WAV, or at least an audio context. *)
Definition can_ring (p : Page) : bool :=
  match bellEl (timer p), bellWavUrl (timer p), audioCtor p with
  | None, None, None => false
  | _, _, _ => true
  end.

Fixpoint tick_stops (nows : list Z) (p : Page) : nat :=
  match nows with
  | [] => 0
  | now :: r =>
      let q := exec tick (set_clock now p) in
      ((if isRunning (timer p) && negb (isRunning (timer q)) then 1 else 0)
       + tick_stops r q)%nat
  end.

End KeepAliveWav.

(** ** The variant with the bell baked into a WAV (unnamed part_000, second
    file)

    Its [stopTimer] (376-388) first recomputes [remaining] from [endTime]. *)

Module BakedWav.

Record TimerState := mkTimer {
  duration : Z;
  remaining : Z;
  endTime : option Z;
  isRunning : bool;
  interval : option positive;
  timerAudio : option AudioElement;
  timerAudioUrl : option string
}.

Record Page := mkPage {
  timer : TimerState;
  clock : Z;
  toggleText : string;
  liveTimers : list positive;
  calls : list HostCall
}.

Definition with_timer (f : TimerState -> TimerState) (p : Page) : Page :=
  mkPage (f (timer p)) (clock p) (toggleText p) (liveTimers p) (calls p).
Definition set_remaining (v : Z) (t : TimerState) : TimerState :=
  mkTimer (duration t) v (endTime t) (isRunning t) (interval t)
          (timerAudio t) (timerAudioUrl t).
Definition set_endTime (v : option Z) (t : TimerState) : TimerState :=
  mkTimer (duration t) (remaining t) v (isRunning t) (interval t)
          (timerAudio t) (timerAudioUrl t).
Definition set_isRunning (v : bool) (t : TimerState) : TimerState :=
  mkTimer (duration t) (remaining t) (endTime t) v (interval t)
          (timerAudio t) (timerAudioUrl t).
Definition set_interval (v : option positive) (t : TimerState) : TimerState :=
  mkTimer (duration t) (remaining t) (endTime t) (isRunning t) v
          (timerAudio t) (timerAudioUrl t).
Definition set_timerAudio (v : option AudioElement) (t : TimerState)
  : TimerState :=
  mkTimer (duration t) (remaining t) (endTime t) (isRunning t) (interval t)
          v (timerAudioUrl t).
Definition set_timerAudioUrl (v : option string) (t : TimerState)
  : TimerState :=
  mkTimer (duration t) (remaining t) (endTime t) (isRunning t) (interval t)
          (timerAudio t) v.
Definition set_toggleText (s : string) (p : Page) : Page :=
  mkPage (timer p) (clock p) s (liveTimers p) (calls p).
Definition set_liveTimers (l : list positive) (p : Page) : Page :=
  mkPage (timer p) (clock p) (toggleText p) l (calls p).
Definition log_call (c : HostCall) (p : Page) : Page :=
  mkPage (timer p) (clock p) (toggleText p) (liveTimers p) (c :: calls p).

Definition update (f : TimerState -> TimerState) : M Page unit :=
  modify (with_timer f).
Definition host (c : HostCall) : M Page unit := modify (log_call c).
Definition Date_now : M Page Z := fun p => (Returned (clock p), p).

Definition clearInterval (h : positive) : M Page unit :=
  modify (fun p => set_liveTimers (remove Pos.eq_dec h (liveTimers p)) p) ;;
  host (ClearInterval h).

(** part_000 313-322 *)
Definition cleanupAudio : M Page unit :=
  p <- get ;;
  match timerAudio (timer p) with
  | Some el => host (ElementPause (src el)) ;; update (set_timerAudio None)
  | None => skip
  end ;;
  p <- get ;;
  match timerAudioUrl (timer p) with
  | Some url => host (RevokeObjectURL url) ;; update (set_timerAudioUrl None)
  | None => skip
  end.

(** part_000 376-388 *)
Definition stopTimer : M Page unit :=
  p <- get ;;
  (if isRunning (timer p) && Js.truthy (endTime (timer p)) then
     now <- Date_now ;;
     update (fun t =>
               set_remaining
                 (Z.max 0 (Js.ceil_div (Js.to_number (endTime t) - now) 1000))
                 t)
   else skip) ;;
  update (set_isRunning false) ;;
  update (set_endTime None) ;;
  modify (set_toggleText "Start") ;;
  p <- get ;;
  match interval (timer p) with
  | Some h => clearInterval h ;; update (set_interval None)
  | None => skip
  end ;;
  cleanupAudio.

(** A run of 600 s started at host time 0, seen at 2500 ms. *)
Definition running_page : Page :=
  mkPage (mkTimer 600 600 (Some 600000) true (Some 1%positive)
                  (Some (mkAudio "blob:timer" false 100))
                  (Some "blob:timer"%string))
         2500 "Pause" [1%positive] [].

End BakedWav.

(** ** The expandable truth cards (script.js 14-24)

    One card: the [aria-expanded] attribute and the text of its button, and
    whether its expanded part carries the class [active]. *)

Module TruthCard.

Record Card := mkCard {
  ariaExpanded : option string;
  textContent : string;
  active : bool
}.

(** The click listener of a card's button. *)
Definition onClick (c : Card) : Card :=
  let isExpanded :=
    match ariaExpanded c with
    | Some v => String.eqb v "true"
    | None => false
    end in
  mkCard (Some (if negb isExpanded then "true" else "false")%string)
         (if isExpanded then "Go Deeper" else "Show Less")%string
         (negb (active c)).

(** Every button listens for itself: a click on button [i] of the page. *)
Fixpoint click (i : nat) (cards : list Card) : list Card :=
  match cards, i with
  | [], _ => []
  | c :: r, O => onClick c :: r
  | c :: r, S j => c :: click j r
  end.

Fixpoint clicks (n : nat) (c : Card) : Card :=
  match n with
  | O => c
  | S k => onClick (clicks k c)
  end.

(** Attribute and label say the same. *)
Definition consistent (c : Card) : Prop :=
  (ariaExpanded c = Some "true"%string /\ textContent c = "Show Less"%string)
  \/ (ariaExpanded c = Some "false"%string
      /\ textContent c = "Go Deeper"%string).

End TruthCard.

(** ** The first timer (unnamed part_000, first file, 27-123)

    It counts the callbacks of the interval down and reads no clock; the
    bell makes a new audio context each time. *)

Module CounterTimer.

Record TimerState := mkTimer {
  duration : Z;
  remaining : Z;
  isRunning : bool;
  interval : option positive
}.

Definition timerState0 : TimerState := mkTimer (10 * 60) (10 * 60) false None.

Record Page := mkPage {
  timer : TimerState;
  minutesText : string;
  secondsText : string;
  toggleText : string;
  liveTimers : list positive;
  nextHandle : positive;
  audioCtor : option ContextState;
  calls : list HostCall
}.

Definition page0 (ctor : option ContextState) : Page :=
  mkPage timerState0 "10" "00" "Start" [] 1%positive ctor [].

Definition with_timer (f : TimerState -> TimerState) (p : Page) : Page :=
  mkPage (f (timer p)) (minutesText p) (secondsText p) (toggleText p)
         (liveTimers p) (nextHandle p) (audioCtor p) (calls p).
Definition set_duration (v : Z) (t : TimerState) : TimerState :=
  mkTimer v (remaining t) (isRunning t) (interval t).
Definition set_remaining (v : Z) (t : TimerState) : TimerState :=
  mkTimer (duration t) v (isRunning t) (interval t).
Definition set_isRunning (v : bool) (t : TimerState) : TimerState :=
  mkTimer (duration t) (remaining t) v (interval t).
Definition set_interval (v : option positive) (t : TimerState) : TimerState :=
  mkTimer (duration t) (remaining t) (isRunning t) v.
Definition set_display (m s : string) (p : Page) : Page :=
  mkPage (timer p) m s (toggleText p) (liveTimers p) (nextHandle p)
         (audioCtor p) (calls p).
Definition set_toggleText (s : string) (p : Page) : Page :=
  mkPage (timer p) (minutesText p) (secondsText p) s (liveTimers p)
         (nextHandle p) (audioCtor p) (calls p).
Definition set_liveTimers (l : list positive) (n : positive) (p : Page)
  : Page :=
  mkPage (timer p) (minutesText p) (secondsText p) (toggleText p) l n
         (audioCtor p) (calls p).
Definition log_call (c : HostCall) (p : Page) : Page :=
  mkPage (timer p) (minutesText p) (secondsText p) (toggleText p)
         (liveTimers p) (nextHandle p) (audioCtor p) (c :: calls p).

Definition update (f : TimerState -> TimerState) : M Page unit :=
  modify (with_timer f).
Definition host (c : HostCall) : M Page unit := modify (log_call c).

Definition setInterval : M Page positive :=
  p <- get ;;
  let h := nextHandle p in
  modify (set_liveTimers (h :: liveTimers p) (Pos.succ h)) ;;
  host (SetInterval h) ;;
  ret h.

Definition clearInterval (h : positive) : M Page unit :=
  modify (fun p =>
            set_liveTimers (remove Pos.eq_dec h (liveTimers p))
                           (nextHandle p) p) ;;
  host (ClearInterval h).

Definition newAudioContext : M Page AudioContext :=
  p <- get ;;
  match audioCtor p with
  | None => throw TypeError
  | Some st => host NewAudioContext ;; ret (mkCtx st)
  end.

(** part_000 40-45 *)
Definition updateDisplay : M Page unit :=
  p <- get ;;
  let mins := remaining (timer p) / 60 in
  let secs := Z.rem (remaining (timer p)) 60 in
  modify (set_display (Js.padStart 2 "0" (Js.toString mins))
                      (Js.padStart 2 "0" (Js.toString secs))).

(** part_000 47-74 *)
Definition playBell : M Page unit :=
  audioContext <- newAudioContext ;;
  host (BellTones (tones 0 0 frequencies)).

(** part_000 94-101 *)
Definition stopTimer : M Page unit :=
  update (set_isRunning false) ;;
  modify (set_toggleText "Start") ;;
  p <- get ;;
  match interval (timer p) with
  | Some h => clearInterval h ;; update (set_interval None)
  | None => skip
  end.

(** The callback [startTimer] hands to [setInterval] (part_000 80-91). *)
Definition onInterval : M Page unit :=
  update (fun t => set_remaining (remaining t - 1) t) ;;
  updateDisplay ;;
  p <- get ;;
  if remaining (timer p) <=? 0 then
    stopTimer ;;
    playBell ;;
    modify (set_toggleText "Start") ;;
    update (fun t => set_remaining (duration t) t) ;;
    updateDisplay
  else skip.

(** part_000 76-92 *)
Definition startTimer : M Page unit :=
  update (set_isRunning true) ;;
  modify (set_toggleText "Pause") ;;
  h <- setInterval ;;
  update (set_interval (Some h)).

(** part_000 103-112 *)
Definition adjustDuration (minutes : Z) : M Page unit :=
  p <- get ;;
  if isRunning (timer p) then skip
  else
    let newDuration := duration (timer p) + minutes * 60 in
    if (60 <=? newDuration) && (newDuration <=? 60 * 60) then
      update (set_duration newDuration) ;;
      update (set_remaining newDuration) ;;
      updateDisplay
    else skip.

(** part_000 114-123 *)
Definition onToggleClick : M Page unit :=
  p <- get ;;
  if isRunning (timer p) then stopTimer else startTimer.

Inductive Event :=
| ToggleClick
| DecreaseClick
| IncreaseClick
| IntervalFire (h : positive).

Definition handler (ev : Event) : M Page unit :=
  match ev with
  | ToggleClick => onToggleClick
  | DecreaseClick => adjustDuration (-5)
  | IncreaseClick => adjustDuration 5
  | IntervalFire h =>
      p <- get ;;
      if in_dec Pos.eq_dec h (liveTimers p) then onInterval else skip
  end.

Definition dispatch (ev : Event) (p : Page) : Page := exec (handler ev) p.

Fixpoint run (evs : list Event) (p : Page) : Page :=
  match evs with
  | [] => p
  | ev :: r => run r (dispatch ev p)
  end.

Inductive reachable : Page -> Prop :=
| reachable_load (ctor : option ContextState) : reachable (page0 ctor)
| reachable_dispatch (p : Page) (ev : Event) :
    reachable p -> reachable (dispatch ev p).

(** Pages reached on a host that has an [AudioContext] constructor. *)
Inductive reachable_with_audio : Page -> Prop :=
| audio_load (st : ContextState) : reachable_with_audio (page0 (Some st))
| audio_dispatch (p : Page) (ev : Event) :
    reachable_with_audio p -> reachable_with_audio (dispatch ev p).

(** The invariant of the page, with or without audio. *)
Record wf (p : Page) : Prop := mkWf {
  wf_duration : 300 <= duration (timer p) <= 3600;
  wf_grid : duration (timer p) mod 300 = 0;
  wf_timers :
    liveTimers p = match interval (timer p) with
                   | Some h => [h]
                   | None => []
                   end;
  wf_running : isRunning (timer p) = true -> interval (timer p) <> None;
  wf_idle : isRunning (timer p) = false -> interval (timer p) = None
}.

Definition bells (p : Page) : nat := bell_requests (calls p).

(** [k] callbacks of the interval with handle [h]. *)
Fixpoint fires (k : nat) (h : positive) (p : Page) : Page :=
  match k with
  | O => p
  | S j => fires j h (dispatch (IntervalFire h) p)
  end.

(** With audio the count stays between 1 and the duration. *)
Record counting (p : Page) : Prop := mkCounting {
  counting_remaining : 1 <= remaining (timer p) <= duration (timer p);
  counting_audio : audioCtor p <> None
}.

(** The last second of a run without audio. *)
Definition last_second : Page :=
  run (ToggleClick :: repeat (IntervalFire 1) 599) (page0 None).

End CounterTimer.

(** ** The WAV file of the baked-WAV version (unnamed part_000, second
    file, 239-309) *)

Module Wav.

(** The bytes of an ArrayBuffer, seen through a DataView. *)
Definition Buffer := list Z.

Definition byteLength (b : Buffer) : Z := Z.of_nat (List.length b).

(** The largest length [new ArrayBuffer] takes: 2^53 - 1 bytes. *)
Definition maxByteLength : Z := 9007199254740991.

(** [new ArrayBuffer (n)]: zeros; a negative length and one above
    [maxByteLength] are a RangeError.  The host is taken to have the
    memory for every length up to there; one that has not refuses the
    length with the same RangeError, earlier. *)
Definition ArrayBuffer (n : Z) : option Buffer :=
  if (n <? 0) || (maxByteLength <? n) then None
  else Some (repeat 0 (Z.to_nat n)).

Definition andThen (o : option Buffer) (f : Buffer -> option Buffer)
  : option Buffer :=
  match o with
  | Some b => f b
  | None => None
  end.

Notation "o >>= f" := (andThen o f) (at level 50, left associativity).

(** The bytes [bs] stored from offset [off] on; outside the buffer a
    RangeError. *)
Definition store (off : Z) (bs : list Z) (b : Buffer) : option Buffer :=
  if (0 <=? off) && (off + Z.of_nat (List.length bs) <=? byteLength b)
  then Some (firstn (Z.to_nat off) b ++ bs
             ++ skipn (Z.to_nat off + List.length bs) b)
  else None.

(** The low [n] bytes of [v], lowest first: two's complement for a
    negative [v], the value modulo 256^n for one too large. *)
Fixpoint le_bytes (n : nat) (v : Z) : list Z :=
  match n with
  | O => []
  | S k => v mod 256 :: le_bytes k (v / 256)
  end.

Definition bytes_of (n : nat) (v : Z) (littleEndian : bool) : list Z :=
  if littleEndian then le_bytes n v else rev (le_bytes n v).

Definition setUint8 (off v : Z) : Buffer -> option Buffer :=
  store off (le_bytes 1 v).
Definition setUint16 (off v : Z) (littleEndian : bool)
  : Buffer -> option Buffer :=
  store off (bytes_of 2 v littleEndian).
Definition setInt16 (off v : Z) (littleEndian : bool)
  : Buffer -> option Buffer :=
  store off (bytes_of 2 v littleEndian).
Definition setUint32 (off v : Z) (littleEndian : bool)
  : Buffer -> option Buffer :=
  store off (bytes_of 4 v littleEndian).

(** Reading back, as the getters of a DataView do. *)
Fixpoint le_value (bs : list Z) : Z :=
  match bs with
  | [] => 0
  | x :: r => x + 256 * le_value r
  end.

Definition load (off : Z) (n : nat) (b : Buffer) : option (list Z) :=
  if (0 <=? off) && (off + Z.of_nat n <=? byteLength b)
  then Some (firstn n (skipn (Z.to_nat off) b))
  else None.

Definition value_of (bs : list Z) (littleEndian : bool) : Z :=
  le_value (if littleEndian then bs else rev bs).

Definition getUint16 (off : Z) (littleEndian : bool) (b : Buffer)
  : option Z :=
  option_map (fun bs => value_of bs littleEndian) (load off 2 b).
Definition getUint32 (off : Z) (littleEndian : bool) (b : Buffer)
  : option Z :=
  option_map (fun bs => value_of bs littleEndian) (load off 4 b).

(** A number as a signed 16-bit integer. *)
Definition toInt16 (v : Z) : Z :=
  let u := v mod 65536 in if u <? 32768 then u else u - 65536.

Definition getInt16 (off : Z) (littleEndian : bool) (b : Buffer)
  : option Z :=
  option_map (fun bs => toInt16 (value_of bs littleEndian)) (load off 2 b).

Fixpoint charCodes (s : string) : list Z :=
  match s with
  | EmptyString => []
  | String c r => Z.of_nat (Ascii.nat_of_ascii c) :: charCodes r
  end.

(** part_000 239-243: one [setUint8] per character. *)
Fixpoint wavWriteString (offset : Z) (str : string) (view : Buffer)
  : option Buffer :=
  match str with
  | EmptyString => Some view
  | String c r =>
      andThen (setUint8 offset (Z.of_nat (Ascii.nat_of_ascii c)) view)
              (wavWriteString (offset + 1) r)
  end.

(** [for (let i = start; i < stop; i += step)], [step > 0]. *)
Definition range (start stop step : Z) : list Z :=
  map (fun k => start + Z.of_nat k * step)
      (seq 0 (Z.to_nat ((stop - start + step - 1) / step))).

Definition for_range (start stop step : Z)
           (body : Z -> Buffer -> option Buffer) (b : Buffer)
  : option Buffer :=
  fold_left (fun acc i => andThen acc (body i)) (range start stop step)
            (Some b).

Section CreateTimerWav.

(** The synthesis of the bell works on doubles ([Math.sin], [Math.pow]):
    [bellSample n] stands for the integer part of the number [setInt16] is
    given for the [n]-th sample of the bell. *)
Variable bellSample : Z -> Z.

(** part_000 248-309.  [durationSec] is [timerState.remaining], an
    integer, so [Math.ceil (sr * totalSec)] and [Math.floor (sr *
    durationSec)] are the products, and [Math.floor (sr * 0.25)] is 2000.
    The result is the buffer the blob URL is made of. *)
Definition createTimerWav (durationSec : Z) : option Buffer :=
  let sr := 8000 in
  let bellSec := 5 in
  let totalSec := durationSec + bellSec in
  let totalSamples := sr * totalSec in
  let dataSize := totalSamples * 2 in
  let bellStart := sr * durationSec in
  let noiseGap := 2000 in
  ArrayBuffer (44 + dataSize)
  >>= wavWriteString 0 "RIFF"
  >>= setUint32 4 (36 + dataSize) true
  >>= wavWriteString 8 "WAVE"
  >>= wavWriteString 12 "fmt "
  >>= setUint32 16 16 true
  >>= setUint16 20 1 true
  >>= setUint16 22 1 true
  >>= setUint32 24 sr true
  >>= setUint32 28 (sr * 2) true
  >>= setUint16 32 2 true
  >>= setUint16 34 16 true
  >>= wavWriteString 36 "data"
  >>= setUint32 40 dataSize true
  >>= for_range 0 bellStart noiseGap
        (fun i => setInt16 (44 + i * 2) 1 true)
  >>= for_range bellStart totalSamples 1
        (fun i => setInt16 (44 + i * 2) (bellSample (i - bellStart)) true).

End CreateTimerWav.

(** The 44 bytes of the header for [dataSize] bytes of samples: PCM, one
    channel, 8000 samples a second, 16 bits. *)
Definition header (dataSize : Z) : list Z :=
  charCodes "RIFF" ++ le_bytes 4 (36 + dataSize)
  ++ charCodes "WAVE" ++ charCodes "fmt "
  ++ le_bytes 4 16 ++ le_bytes 2 1 ++ le_bytes 2 1
  ++ le_bytes 4 8000 ++ le_bytes 4 16000 ++ le_bytes 2 2 ++ le_bytes 2 16
  ++ charCodes "data" ++ le_bytes 4 dataSize.

End Wav.

(** ** Definitions used by the further properties of script.js *)

(** How many calls of one kind a log holds. *)
Definition count_calls (kind : HostCall -> bool) (cs : list HostCall) : nat :=
  List.length (filter kind cs).

Definition is_new_context (c : HostCall) : bool :=
  match c with NewAudioContext => true | _ => false end.
Definition is_set_interval (c : HostCall) : bool :=
  match c with SetInterval _ => true | _ => false end.
Definition is_clear_interval (c : HostCall) : bool :=
  match c with ClearInterval _ => true | _ => false end.
Definition is_keep_alive_start (c : HostCall) : bool :=
  match c with KeepAliveStart => true | _ => false end.
Definition is_keep_alive_stop (c : HostCall) : bool :=
  match c with KeepAliveStop => true | _ => false end.
Definition is_scheduled (c : HostCall) : bool :=
  match c with ScheduledTones _ => true | _ => false end.

Definition is_oscillator_stop (c : HostCall) : bool :=
  match c with OscillatorStop _ => true | _ => false end.

Definition is_some {A} (o : option A) : bool :=
  match o with Some _ => true | None => false end.

(** A group of the three tones of the bell asked of the audio context: by
    [playBellNow], at once or behind a resume, or by [scheduleBell], ahead
    of time. *)
Definition is_tone_group (c : HostCall) : bool :=
  match c with
  | BellTones _ | CtxResumeThenBellTones | ScheduledTones _ => true
  | _ => false
  end.

Definition tone_groups (p : Page) : nat :=
  count_calls is_tone_group (calls p).
Definition scheduled_bells (p : Page) : nat :=
  count_calls is_scheduled (calls p).
Definition oscillator_stops (p : Page) : nat :=
  count_calls is_oscillator_stop (calls p).

(** The calls logged on the way from [p] to [q], newest first. *)
Definition new_calls (p q : Page) : list HostCall :=
  firstn (List.length (calls q) - List.length (calls p)) (calls q).

(** The calls of the events [evs] on [p], oldest first, each with the host
    time of the event whose handler made it. *)
Fixpoint timeline (evs : list (Z * Event)) (p : Page)
  : list (Z * HostCall) :=
  match evs with
  | [] => []
  | (now, ev) :: r =>
      let q := dispatch now ev p in
      map (pair now) (rev (new_calls p q)) ++ timeline r q
  end.

(** When the tones of a call made at host time [fst x] sound, start and
    stop of each in milliseconds of host time: on an audio context whose
    clock runs along with the host's, and if nothing stops them.  Tones
    behind a resume start when the resume completes; they are left out. *)
Definition sounds (x : Z * HostCall) : list (Z * Z) :=
  match snd x with
  | BellTones os | ScheduledTones os =>
      map (fun o => (fst x + startMs o, fst x + stopMs o)) os
  | _ => []
  end.


(** A run of 10:00 whose page is in the background, its interval timer
    throttled away, until the user comes back after 11:40. *)
Definition late_return : list (Z * Event) :=
  [(0, ToggleClick); (700000, VisibilityChange true)].

(** The four buttons that call [adjustTime]. *)
Definition is_adjust (ev : Event) : bool :=
  match ev with
  | MinUpClick | MinDownClick | SecUpClick | SecDownClick => true
  | _ => false
  end.

(** What [updateDisplay] writes for [r] seconds. *)
Definition minutes_of (r : Z) : string :=
  Js.padStart 2 "0" (Js.toString (r / 60)).
Definition seconds_of (r : Z) : string :=
  Js.padStart 2 "0" (Js.toString (Z.rem r 60)).

(** The three text nodes agree with the timer. *)
Record display_ok (p : Page) : Prop := mkDisplayOk {
  shows_minutes : minutesText p = minutes_of (remaining (timer p));
  shows_seconds : secondsText p = seconds_of (remaining (timer p));
  shows_label :
    toggleText p = if isRunning (timer p) then "Pause"%string
                   else "Start"%string
}.

(** What the page holds of the host, against the running flag and the log:
    the keep-alive loop and the pre-scheduled bell exist exactly while the
    timer runs, one audio context is made at most, and every interval and
    every keep-alive loop opened and not held any more has been closed. *)
Record tidy (p : Page) : Prop := mkTidy {
  tidy_keep_alive : is_some (keepAliveAudio (timer p)) = isRunning (timer p);
  tidy_scheduled : is_some (scheduledBell (timer p)) = isRunning (timer p);
  tidy_context :
    count_calls is_new_context (calls p)
    = if is_some (audioContext (timer p)) then 1%nat else 0%nat;
  tidy_intervals :
    count_calls is_set_interval (calls p)
    = (count_calls is_clear_interval (calls p)
       + List.length (liveTimers p))%nat;
  tidy_loops :
    count_calls is_keep_alive_start (calls p)
    = (count_calls is_keep_alive_stop (calls p)
       + if is_some (keepAliveAudio (timer p)) then 1 else 0)%nat
}.

(** Pages reached with a host clock that never runs backwards. *)
Inductive reachable_mono : Page -> Prop :=
| mono_load (ctor : option ContextState) : reachable_mono (page0 ctor)
| mono_dispatch (p : Page) (now : Z) (ev : Event) :
    reachable_mono p -> clock p <= now -> reachable_mono (dispatch now ev p).

(** With such a clock the end time is never further away than what
    [remaining] shows, and [remaining] never above [duration]. *)
Record on_time (p : Page) : Prop := mkOnTime {
  on_time_bound : remaining (timer p) <= duration (timer p);
  on_time_end :
    isRunning (timer p) = true ->
    Js.to_number (endTime (timer p)) - clock p <= remaining (timer p) * 1000
}.

(** * Properties *)

(** ** Arithmetic of the helpers *)

Lemma ceil_div_Qceiling (a : Z) :
  Js.ceil_div a 1000 = Qceiling (a # 1000).
Proof. reflexivity. Qed.

Lemma ceil_div_pos (a : Z) : 0 < Js.ceil_div a 1000 <-> 0 < a.
Proof.
  unfold Js.ceil_div.
  pose proof (Z.div_mod (- a) 1000 ltac:(lia)).
  pose proof (Z.mod_pos_bound (- a) 1000 ltac:(lia)).
  lia.
Qed.

Lemma ceil_div_exact (k : Z) : Js.ceil_div (k * 1000) 1000 = k.
Proof.
  unfold Js.ceil_div.
  replace (- (k * 1000)) with ((- k) * 1000) by lia.
  rewrite Z.div_mul by lia. lia.
Qed.

Lemma time_left_expired (end_ : option Z) (now : Z) :
  (time_left end_ now <=? 0) = (Js.to_number end_ <=? now).
Proof.
  unfold time_left.
  pose proof (ceil_div_pos (Js.to_number end_ - now)).
  destruct (Z.leb_spec (Js.to_number end_) now);
    destruct (Z.leb_spec (Z.max 0 (Js.ceil_div (Js.to_number end_ - now) 1000)) 0);
    lia.
Qed.

Lemma time_left_nonneg (end_ : option Z) (now : Z) : 0 <= time_left end_ now.
Proof. unfold time_left. lia. Qed.

(** ** The requests for the bell *)

Lemma bell_requests_app (a b : list HostCall) :
  bell_requests (a ++ b) = (bell_requests a + bell_requests b)%nat.
Proof. unfold bell_requests. now rewrite filter_app, length_app. Qed.

Lemma bell_requests_cons (c : HostCall) (cs : list HostCall) :
  bell_requests (c :: cs)
  = ((if is_bell c then 1 else 0) + bell_requests cs)%nat.
Proof. unfold bell_requests. cbn [filter]. destruct (is_bell c); reflexivity. Qed.

Lemma bell_requests_stops (os : list Oscillator) :
  bell_requests (rev (map OscillatorStop os)) = 0%nat.
Proof.
  induction os as [|o os IH]; [reflexivity|].
  cbn [map rev]. rewrite bell_requests_app, IH. reflexivity.
Qed.

(** ** What the functions of script.js do *)

Lemma stop_oscillators (os : list Oscillator) (p : Page) :
  forEach (fun osc => try_ignore (host (OscillatorStop osc))) os p
  = (Returned tt, log_calls (rev (map OscillatorStop os)) p).
Proof.
  revert p. induction os as [|o os IH]; intros p.
  - destruct p. reflexivity.
  - cbn [forEach map rev]. unfold bind at 1.
    unfold try_ignore at 1, host at 1, modify at 1.
    rewrite IH. destruct p. unfold log_calls, log_call. cbn.
    now rewrite <- app_assoc.
Qed.

Lemma cancelScheduledBell_spec (p : Page) :
  cancelScheduledBell p
  = (Returned tt,
     match scheduledBell (timer p) with
     | Some os =>
         with_timer (set_scheduledBell None)
                    (log_calls (rev (map OscillatorStop os)) p)
     | None => p
     end).
Proof.
  unfold cancelScheduledBell, bind at 1, get.
  destruct (scheduledBell (timer p)) as [os|]; [|reflexivity].
  unfold bind. rewrite stop_oscillators. reflexivity.
Qed.

(** Symbolic execution of a function on a page. *)
Ltac js_step :=
  cbv [tick startTimer stopTimer resetTimer adjustTime playBellNow
       _playBellTones scheduleBell stopKeepAlive
       startKeepAlive initAudio updateDisplay clearHeartbeat clearInterval
       setInterval newAudioContext Date_now onVisibilityChange onToggleClick
       hostAudioState handler dispatch
       bind ret get modify update host skip throw try_ignore exec returns
       with_timer set_duration set_remaining set_endTime set_isRunning
       set_interval set_audioContext set_keepAliveAudio set_scheduledBell
       set_clock set_display set_toggleText set_liveTimers log_call log_calls
       timer clock minutesText secondsText toggleText liveTimers nextHandle
       audioCtor calls duration remaining endTime isRunning interval
       audioContext keepAliveAudio scheduledBell state is_suspended
       bells fst snd andb negb orb String.eqb Ascii.eqb Bool.eqb].

Ltac js := repeat (js_step; try rewrite cancelScheduledBell_spec).

Ltac destruct_page p :=
  let d := fresh "d" in let r := fresh "r" in let e := fresh "e" in
  let rn := fresh "rn" in let iv := fresh "iv" in let ac := fresh "ac" in
  let ka := fresh "ka" in let sb := fresh "sb" in
  let clk := fresh "clk" in let mt := fresh "mt" in let st := fresh "st" in
  let tg := fresh "tg" in let lt := fresh "lt" in let nh := fresh "nh" in
  let ctor := fresh "ctor" in let cs := fresh "cs" in
  destruct p as [[d r e rn iv ac ka sb] clk mt st tg lt nh ctor cs].

(** Case split on what the next branch of the code tests. *)
Ltac break_var :=
  match goal with
  | |- context [match ?x with _ => _ end] => is_var x; destruct x
  | |- context [if (?a <=? ?b) then _ else _] => destruct (Z.leb_spec a b)
  | |- context [if (?a <? ?b) then _ else _] => destruct (Z.ltb_spec a b)
  | |- context [match in_dec ?d ?a ?l with _ => _ end] =>
      destruct (in_dec d a l)
  | |- context [match Pos.eq_dec ?a ?b with _ => _ end] =>
      destruct (Pos.eq_dec a b)
  | |- context [match Pos.eqb ?a ?b with _ => _ end] =>
      destruct (Pos.eqb_spec a b)
  end.

Ltac js_run := js; repeat (break_var; js).

(** Counting the requests for the bell in a log. *)
Ltac count_bells :=
  repeat (rewrite ?bell_requests_cons, ?bell_requests_app,
           ?bell_requests_stops);
  cbn [is_bell Nat.add]; try reflexivity; try lia.

(** ** The invariant of the page *)

Lemma rem_grid (d : Z) :
  5 <= d -> d mod 5 = 0 ->
  Z.rem d 60 = d mod 60 /\ 0 <= d mod 60 <= 55 /\ (d mod 60) mod 5 = 0.
Proof.
  intros. rewrite Z.rem_mod_nonneg by lia.
  Z.to_euclidean_division_equations. lia.
Qed.

Lemma remove_single (h : positive) : remove Pos.eq_dec h [h] = [].
Proof. cbn. destruct (Pos.eq_dec h h); congruence. Qed.

(** In a well-formed page a running timer has its end time, its heartbeat
    and its audio context; an idle one has no heartbeat. *)
Ltac wf_cases p H :=
  let Hd := fresh "Hd" in let Hg := fresh "Hg" in let Hr := fresh "Hr" in
  let Ht := fresh "Ht" in let Hrun := fresh "Hrun" in
  let Hidle := fresh "Hidle" in
  destruct H as [Hd Hg Hr Ht Hrun Hidle];
  destruct_page p; cbn in Hd, Hg, Hr, Ht, Hrun, Hidle;
  match type of Hidle with
  | ?rn = false -> ?iv = None =>
      destruct rn;
      [ destruct (Hrun eq_refl) as (? & ? & ?); clear Hrun Hidle;
        match goal with
        | He : ?e <> None, Hi : iv <> None, Ha : ?ac <> None |- _ =>
            destruct e; [|congruence]; destruct iv; [|congruence];
            destruct ac; [|congruence]; clear He Hi Ha
        end
      | pose proof (Hidle eq_refl); subst iv; clear Hrun Hidle ]
  end;
  cbn in Ht; subst.

Ltac wf_fields :=
  constructor;
  cbn [duration remaining endTime isRunning interval audioContext timer
       liveTimers];
  try lia; try congruence; try tauto;
  try (intros; repeat split; congruence);
  try apply remove_single;
  try (Z.to_euclidean_division_equations; lia).

Lemma wf_page0 (ctor : option ContextState) : wf (page0 ctor).
Proof. unfold page0, timerState0. wf_fields. Qed.

Lemma wf_dispatch (p : Page) (now : Z) (ev : Event) :
  wf p -> wf (dispatch now ev p).
Proof.
  intros H. wf_cases p H.
  all: destruct (rem_grid d (proj1 Hd) Hg) as (Erem & Hs & Hsg).
  all: destruct ev; js_run; try rewrite Erem in *; wf_fields.
Qed.

Lemma reachable_wf (p : Page) : reachable p -> wf p.
Proof.
  induction 1 as [ctor | p now ev _ IH].
  - apply wf_page0.
  - now apply wf_dispatch.
Qed.

Lemma reachable_run (evs : list (Z * Event)) (p : Page) :
  reachable p -> reachable (run evs p).
Proof.
  revert p. induction evs as [|[now ev] evs IH]; intros p Hp; cbn [run].
  - exact Hp.
  - apply IH. now apply reachable_dispatch.
Qed.

(** ** Duration and remaining time in every reachable state *)

(** C9. From the page as loaded, whatever events follow (start, pause,
    ticks, adjustments, reset, visibility and audio changes), [duration]
    is at least 5 seconds. *)
Theorem duration_at_least_5 (p : Page) :
  reachable p -> 5 <= duration (timer p).
Proof. intros H. apply reachable_wf in H. apply H. Qed.

Lemma duration_at_least_5_witness :
  5 <= duration (timer (dispatch 0 SecDownClick (page0 None))).
Proof.
  apply (duration_at_least_5 (dispatch 0 SecDownClick (page0 None))).
  apply reachable_dispatch, reachable_load.
Defined.

(** C10. From the page as loaded, whatever events follow, [remaining] is a
    nonnegative integer (it is never below 1 between two events: a tick
    that computes 0 resets it to [duration]). *)
Theorem remaining_nonnegative (p : Page) :
  reachable p -> 0 <= remaining (timer p).
Proof.
  intros H. apply reachable_wf in H.
  pose proof (wf_remaining p H). lia.
Qed.

Lemma remaining_nonnegative_witness :
  0 <= remaining
         (timer (run [(0, ToggleClick); (600000, IntervalFire 1)]
                     (page0 (Some CtxRunning)))).
Proof.
  apply (remaining_nonnegative
           (run [(0, ToggleClick); (600000, IntervalFire 1)]
                (page0 (Some CtxRunning)))).
  cbn [run]. do 2 apply reachable_dispatch. apply reachable_load.
Defined.

(** Inside [tick], before the reset, the recomputed value is clamped. *)
Lemma tick_remaining_nonneg (p : Page) :
  0 <= duration (timer p) -> 0 <= remaining (timer (exec tick p)).
Proof. destruct_page p. js_run; cbn; lia. Qed.

(** What does hold of the upper end: minutes are clamped to 60 and the
    seconds part stays on the 5-second grid, so 60:55 is the most. *)
Lemma reachable_duration_bounds (p : Page) :
  reachable p ->
  5 <= duration (timer p) <= 3655 /\ duration (timer p) mod 5 = 0.
Proof. intros H. apply reachable_wf in H. split; apply H. Qed.

Lemma duration_3600_reachable :
  duration (timer (run (clicks 50 MinUpClick) (page0 None))) = 3600.
Proof. vm_compute. reflexivity. Qed.

Lemma duration_5_reachable :
  duration (timer (run (clicks 9 MinDownClick ++ clicks 11 SecDownClick)
                       (page0 None))) = 5.
Proof. vm_compute. reflexivity. Qed.

(** At 0:05 both decrements leave the duration; at 60:00 the minute
    increment does. *)
Lemma duration_5_stable (p : Page) (ev : Event) :
  isRunning (timer p) = false -> duration (timer p) = 5 ->
  ev = MinDownClick \/ ev = SecDownClick ->
  duration (timer (dispatch 0 ev p)) = 5.
Proof.
  intros Hrun Hd [-> | ->]; destruct_page p; cbn in Hrun, Hd; subst;
    js_run; cbn in *; try lia; reflexivity.
Qed.

Lemma duration_3600_stable_minutes (p : Page) :
  isRunning (timer p) = false -> duration (timer p) = 3600 ->
  duration (timer (dispatch 0 MinUpClick p)) = 3600.
Proof.
  intros Hrun Hd; destruct_page p; cbn in Hrun, Hd; subst;
    js_run; cbn in *; try lia; reflexivity.
Qed.

(** C4 (fails in the code). At 60:00 the seconds increment is accepted:
    the minutes are clamped to 60 but the total is only checked against
    the lower bound, so 50 minute increments and one seconds increment
    from the default give 3605 seconds. *)
Theorem duration_exceeds_3600 :
  let p := run (clicks 50 MinUpClick ++ [(0, SecUpClick)]) (page0 None) in
  reachable p /\ duration (timer p) = 3605 /\ remaining (timer p) = 3605
  /\ minutesText p = "60"%string /\ secondsText p = "05"%string.
Proof.
  cbv zeta. split.
  - apply reachable_run, reachable_load.
  - vm_compute. repeat split; reflexivity.
Qed.

(** Past 60:00 the seconds go on to 60:55, and one more increment wraps
    the display back to 60:00. *)
Lemma seconds_wrap_at_60_55 :
  let p := run (clicks 50 MinUpClick ++ clicks 11 SecUpClick) (page0 None) in
  duration (timer p) = 3655
  /\ duration (timer (dispatch 0 SecUpClick p)) = 3600.
Proof. vm_compute. split; reflexivity. Qed.

(** ** Adjusting the seconds *)

(** C3 as stated fails: the carry sets the seconds to 0 and the borrow
    sets them to 55, whatever the seconds were.  0:58 + 5 gives 1:00 (not
    1:03), 1:02 - 5 gives 0:55 (not 0:57), and 0:02 - 5 is accepted and
    gives 0:55 (not a rejection). *)
Lemma seconds_carry_off_grid :
  duration (timer (exec (adjustTime "sec" 5) (idle_with 58))) = 60
  /\ duration (timer (exec (adjustTime "sec" 5) (idle_with 58))) <> 63
  /\ duration (timer (exec (adjustTime "sec" (-5)) (idle_with 62))) = 55
  /\ duration (timer (exec (adjustTime "sec" (-5)) (idle_with 62))) <> 57
  /\ duration (timer (exec (adjustTime "sec" (-5)) (idle_with 2))) = 55
  /\ exec (adjustTime "sec" (-5)) (idle_with 2) <> idle_with 2.
Proof. vm_compute. repeat split; congruence. Qed.

(** C3, amended.  On the 5-second grid (where every reachable duration
    lies), while idle: adding 5 seconds gives [d + 5] up to 60:00,
    carrying into the minutes at 55 seconds; taking 5 seconds gives
    [d - 5] down to 0:05, borrowing from the minutes at 0 seconds; at 0:05
    taking 5 seconds is rejected and changes nothing. *)
Theorem seconds_adjust_on_grid (p : Page) :
  isRunning (timer p) = false ->
  duration (timer p) mod 5 = 0 ->
  5 <= duration (timer p) ->
  (duration (timer p) + 5 <= 3600 ->
   duration (timer (exec (adjustTime "sec" 5) p)) = duration (timer p) + 5
   /\ remaining (timer (exec (adjustTime "sec" 5) p))
      = duration (timer p) + 5)
  /\ (10 <= duration (timer p) ->
      duration (timer (exec (adjustTime "sec" (-5)) p))
      = duration (timer p) - 5
      /\ remaining (timer (exec (adjustTime "sec" (-5)) p))
         = duration (timer p) - 5)
  /\ (duration (timer p) = 5 -> exec (adjustTime "sec" (-5)) p = p).
Proof.
  intros Hrun Hg Hd. destruct_page p. cbn in Hrun, Hg, Hd. subst rn.
  destruct (rem_grid d Hd Hg) as (Erem & Hs & Hsg).
  cbn [timer duration].
  repeat split; intros; js_run; rewrite ?Erem in *;
    cbn [duration remaining timer];
    try reflexivity; Z.to_euclidean_division_equations; lia.
Qed.

Lemma seconds_adjust_on_grid_witness :
  duration (timer (exec (adjustTime "sec" 5) (idle_with 55))) = 60
  /\ duration (timer (exec (adjustTime "sec" (-5)) (idle_with 60))) = 55
  /\ exec (adjustTime "sec" (-5)) (idle_with 5) = idle_with 5.
Proof.
  split; [|split].
  - apply (seconds_adjust_on_grid (idle_with 55));
      [reflexivity | reflexivity | vm_compute; congruence
      | vm_compute; congruence].
  - apply (seconds_adjust_on_grid (idle_with 60));
      [reflexivity | reflexivity | vm_compute; congruence
      | vm_compute; congruence].
  - apply (seconds_adjust_on_grid (idle_with 5));
      [reflexivity | reflexivity | vm_compute; congruence | reflexivity].
Defined.

(** ** [tick] on an idle timer *)

(** C5 as stated fails for the [tick] of script.js, which does not look
    at [isRunning]: called on the paused page it reads the cleared end
    time as 0, computes 0 seconds left, rings the bell and overwrites the
    9:59 left with the full duration. *)
Theorem tick_rings_when_idle :
  let q := exec tick (set_clock 2000 paused_page) in
  isRunning (timer paused_page) = false
  /\ endTime (timer paused_page) = None
  /\ remaining (timer paused_page) = 599
  /\ bells paused_page = 0%nat
  /\ remaining (timer q) = 600
  /\ bells q = 1%nat
  /\ calls q = BellTones (tones 0 0 frequencies) :: calls paused_page.
Proof. vm_compute. repeat split; reflexivity. Qed.

(** The same for every idle page whose end time is cleared (or passed):
    one more request for the bell, and [remaining] set to [duration]. *)
Lemma tick_idle_rings (p : Page) :
  isRunning (timer p) = false ->
  Js.to_number (endTime (timer p)) <= clock p ->
  audioContext (timer p) <> None ->
  bells (exec tick p) = S (bells p)
  /\ remaining (timer (exec tick p)) = duration (timer p).
Proof.
  intros Hrun He Hac. destruct_page p. cbn in Hrun, He, Hac. subst rn.
  pose proof (ceil_div_pos (Js.to_number e - clk)) as Hx.
  destruct ac as [[cst]|]; [|congruence].
  js_run; cbn; try lia; split; reflexivity.
Qed.

(** C5, amended.  In script.js the idle timer is kept from [tick] by the
    callers of [tick], not by [tick]: on every reachable page whose timer
    is idle no event calls it.  The callback of the interval timer does
    not run, its handle being cleared on every way out of Running, and
    the visibility listener checks [isRunning]: both leave the page as it
    is.  So does every trigger, the host changing the state of the audio
    context included, for the duration, the remaining time, the end time,
    the running flag, the heartbeat, the scheduled bell and the keep-alive
    loop, and none logs a call: no bell. *)
Theorem idle_page_never_ticks (p : Page) (now : Z) :
  reachable p -> isRunning (timer p) = false ->
  (forall ev, calls_tick p ev = false)
  /\ (forall h, dispatch now (IntervalFire h) p = set_clock now p)
  /\ (forall visible,
      dispatch now (VisibilityChange visible) p = set_clock now p)
  /\ (forall ev, is_trigger ev = true ->
      let q := dispatch now ev p in
      duration (timer q) = duration (timer p)
      /\ remaining (timer q) = remaining (timer p)
      /\ endTime (timer q) = endTime (timer p)
      /\ isRunning (timer q) = false
      /\ interval (timer q) = interval (timer p)
      /\ scheduledBell (timer q) = scheduledBell (timer p)
      /\ keepAliveAudio (timer q) = keepAliveAudio (timer p)
      /\ calls q = calls p).
Proof.
  intros Hp Hrun. pose proof (reachable_wf p Hp) as H.
  wf_cases p H; cbn in Hrun; try discriminate.
  split; [|split; [|split]].
  - intros ev. unfold calls_tick. destruct ev; try reflexivity.
    cbn. apply andb_false_r.
  - intros h. js_run; try contradiction; reflexivity.
  - intros visible. js_run; reflexivity.
  - intros ev Htr. destruct ev; try discriminate; js_run;
      try contradiction; repeat split; reflexivity.
Qed.

Lemma idle_page_never_ticks_witness :
  dispatch 2000 (IntervalFire 1) paused_page = set_clock 2000 paused_page
  /\ dispatch 2000 (VisibilityChange true) paused_page
     = set_clock 2000 paused_page
  /\ remaining (timer (dispatch 2000 (AudioStateChange CtxSuspended)
                                paused_page)) = 599.
Proof.
  pose proof (idle_page_never_ticks paused_page 2000) as H.
  destruct H as (_ & H1 & H2 & H3).
  - apply reachable_run, reachable_load.
  - reflexivity.
  - split; [apply H1 | split; [apply H2|]].
    pose proof (H3 (AudioStateChange CtxSuspended) eq_refl) as H4.
    cbv zeta in H4. destruct H4 as (_ & H4 & _). rewrite H4. reflexivity.
Defined.

(** The sibling [tick] returns at once on an idle timer. *)
Lemma KeepAliveWav_tick_idle_noop (p : KeepAliveWav.Page) :
  KeepAliveWav.isRunning (KeepAliveWav.timer p) = false ->
  KeepAliveWav.tick p = (Returned tt, p).
Proof.
  intros H. unfold KeepAliveWav.tick, bind, get. rewrite H. reflexivity.
Qed.

(** ** [stopTimer] *)

(** C6 (fails in script.js).  [stopTimer] of script.js does not recompute
    [remaining]: pausing at 2002 ms, after the late tick and before the
    next one, leaves the 599 seconds of the last tick where the end time
    gives 598. *)
Theorem stopTimer_keeps_stale_remaining :
  let q := dispatch 2002 ToggleClick late_tick_page in
  isRunning (timer late_tick_page) = true
  /\ endTime (timer late_tick_page) = Some 600000
  /\ time_left (endTime (timer late_tick_page)) 2002 = 598
  /\ isRunning (timer q) = false
  /\ remaining (timer q) = 599.
Proof. vm_compute. repeat split; reflexivity. Qed.

(** What [stopTimer] of script.js does on every page: it leaves
    [remaining] and [duration], clears the end time, the running flag, the
    heartbeat, the pre-scheduled bell and the keep-alive loop, and never
    throws. *)
Lemma stopTimer_effect (p : Page) :
  let q := exec stopTimer p in
  returns stopTimer p = true
  /\ remaining (timer q) = remaining (timer p)
  /\ duration (timer q) = duration (timer p)
  /\ endTime (timer q) = None
  /\ isRunning (timer q) = false
  /\ interval (timer q) = None
  /\ scheduledBell (timer q) = None
  /\ keepAliveAudio (timer q) = None
  /\ audioContext (timer q) = audioContext (timer p)
  /\ liveTimers q = match interval (timer p) with
                    | Some h => remove Pos.eq_dec h (liveTimers p)
                    | None => liveTimers p
                    end
  /\ bells q = bells p.
Proof.
  destruct_page p. js_run; repeat split; count_bells.
Qed.

(** The sibling [stopTimer] recomputes [remaining] from the end time
    before it clears it. *)
Lemma BakedWav_stopTimer_recomputes (p : BakedWav.Page) (e : Z) :
  BakedWav.isRunning (BakedWav.timer p) = true ->
  BakedWav.endTime (BakedWav.timer p) = Some e -> e <> 0 ->
  let q := exec BakedWav.stopTimer p in
  BakedWav.remaining (BakedWav.timer q) = time_left (Some e) (BakedWav.clock p)
  /\ BakedWav.endTime (BakedWav.timer q) = None
  /\ BakedWav.isRunning (BakedWav.timer q) = false
  /\ BakedWav.interval (BakedWav.timer q) = None
  /\ BakedWav.timerAudio (BakedWav.timer q) = None
  /\ BakedWav.timerAudioUrl (BakedWav.timer q) = None.
Proof.
  destruct p as [[d r e' rn iv ta tu] clk tg lt cs]. cbn.
  intros -> [= ->] He.
  unfold BakedWav.stopTimer, BakedWav.cleanupAudio, BakedWav.clearInterval,
    BakedWav.update, BakedWav.host, BakedWav.Date_now, exec, bind, get,
    modify, skip, ret, time_left.
  cbn. destruct (Z.eqb_spec e 0); [congruence|]. cbn.
  destruct iv, ta, tu; cbn; repeat split; reflexivity.
Qed.

(** ** Adjusting and resetting while running *)

(** C7 as stated fails for reset: on a running timer [resetTimer] is not a
    no-op, it stops the timer. *)
Lemma reset_while_running_stops :
  isRunning (timer started_page) = true
  /\ isRunning (timer (exec resetTimer started_page)) = false
  /\ endTime (timer (exec resetTimer started_page)) = None
  /\ liveTimers started_page = [1%positive]
  /\ liveTimers (exec resetTimer started_page) = []
  /\ exec resetTimer started_page <> started_page.
Proof. vm_compute. repeat split; congruence. Qed.

(** C7, amended.  On a running timer [adjustTime] is a no-op, whatever
    its arguments; [resetTimer] stops the timer as [stopTimer] does (end
    time, heartbeat, pre-scheduled bell and keep-alive cleared) and sets
    [remaining] to [duration], which it leaves. *)
Theorem running_adjust_noop_reset_stops (p : Page) :
  isRunning (timer p) = true ->
  (forall type delta, adjustTime type delta p = (Returned tt, p))
  /\ exec resetTimer p
     = exec updateDisplay
         (with_timer (fun t => set_remaining (duration t) t)
                     (exec stopTimer p))
  /\ isRunning (timer (exec resetTimer p)) = false
  /\ endTime (timer (exec resetTimer p)) = None
  /\ interval (timer (exec resetTimer p)) = None
  /\ scheduledBell (timer (exec resetTimer p)) = None
  /\ keepAliveAudio (timer (exec resetTimer p)) = None
  /\ duration (timer (exec resetTimer p)) = duration (timer p)
  /\ remaining (timer (exec resetTimer p)) = duration (timer p).
Proof.
  intros Hrun. destruct_page p. cbn in Hrun. subst rn.
  split; [intros; js; reflexivity|].
  js_run; repeat split; reflexivity.
Qed.

Lemma running_adjust_noop_reset_stops_witness :
  adjustTime "sec" 5 started_page = (Returned tt, started_page)
  /\ isRunning (timer (exec resetTimer started_page)) = false.
Proof.
  pose proof (running_adjust_noop_reset_stops started_page eq_refl) as H.
  split; [apply H | apply H].
Defined.

(** ** Ringing the bell *)




(** Where the missing audio does surface: without an [AudioContext]
    constructor [initAudio] throws, so the start button leaves the page as
    it is and the timer never runs. *)
Lemma startTimer_without_audio_throws :
  returns startTimer (page0 None) = false
  /\ exec startTimer (page0 None) = page0 None
  /\ returns startTimer (page0 (Some CtxRunning)) = true.
Proof. vm_compute. repeat split; reflexivity. Qed.


(** ** One end per run *)

Lemma trigger_idle (p : Page) (now : Z) (ev : Event) :
  wf p -> isRunning (timer p) = false -> is_trigger ev = true ->
  let q := dispatch now ev p in
  isRunning (timer q) = false /\ bells q = bells p
  /\ remaining (timer q) = remaining (timer p)
  /\ duration (timer q) = duration (timer p).
Proof.
  intros H Hrun Htr. wf_cases p H; cbn in Hrun; try discriminate.
  destruct ev; try discriminate; js_run; try contradiction;
    repeat split; reflexivity.
Qed.

Lemma trigger_running (p : Page) (now : Z) (ev : Event) (e : Z) :
  wf p -> isRunning (timer p) = true -> endTime (timer p) = Some e ->
  is_trigger ev = true ->
  let q := dispatch now ev p in
  duration (timer q) = duration (timer p) /\
  if calls_tick p ev && (e <=? now)
  then isRunning (timer q) = false /\ bells q = S (bells p)
       /\ remaining (timer q) = duration (timer p)
  else isRunning (timer q) = true /\ endTime (timer q) = Some e
       /\ liveTimers q = liveTimers p /\ bells q = bells p.
Proof.
  intros H Hrun He Htr. wf_cases p H; cbn in Hrun, He; try discriminate.
  injection He as ->.
  pose proof (ceil_div_pos (e - now)) as Hc.
  unfold calls_tick.
  destruct ev; try discriminate; js_run; cbn [Js.to_number] in *;
    try contradiction; try lia;
    repeat split; try reflexivity; try count_bells;
    try (cbn in *; intuition congruence).
Qed.

Lemma triggers_idle (evs : list (Z * Event)) (p : Page) :
  wf p -> isRunning (timer p) = false ->
  Forall (fun x => is_trigger (snd x) = true) evs ->
  isRunning (timer (run evs p)) = false
  /\ stops evs p = 0%nat
  /\ bells (run evs p) = bells p
  /\ remaining (timer (run evs p)) = remaining (timer p).
Proof.
  revert p. induction evs as [|[now ev] evs IH]; intros p Hwf Hrun Hall.
  - repeat split; assumption || reflexivity.
  - inversion Hall as [|x l Hev Hrest]; subst. cbn [snd] in Hev.
    destruct (trigger_idle p now ev Hwf Hrun Hev) as (Hq & Hb & Hr & _).
    destruct (IH (dispatch now ev p) (wf_dispatch p now ev Hwf) Hq Hrest)
      as (IH1 & IH2 & IH3 & IH4).
    cbn [run stops]. rewrite Hrun, IH2, IH3, IH4, Hb, Hr.
    repeat split; assumption || reflexivity.
Qed.

Lemma triggers_running (evs : list (Z * Event)) (p : Page) (e : Z) :
  wf p -> isRunning (timer p) = true -> endTime (timer p) = Some e ->
  Forall (fun x => is_trigger (snd x) = true) evs ->
  Exists (fun x => e <= fst x /\ calls_tick p (snd x) = true) evs ->
  isRunning (timer (run evs p)) = false
  /\ stops evs p = 1%nat
  /\ bells (run evs p) = S (bells p)
  /\ remaining (timer (run evs p)) = duration (timer p).
Proof.
  revert p.
  induction evs as [|[now ev] evs IH]; intros p Hwf Hrun He Hall Hex.
  - inversion Hex.
  - inversion Hall as [|x l Hev Hrest]; subst. cbn [snd] in Hev.
    pose proof (wf_dispatch p now ev Hwf) as Hwf'.
    destruct (trigger_running p now ev e Hwf Hrun He Hev) as (Hd & Hstep).
    cbn [run stops]. rewrite Hrun.
    destruct (calls_tick p ev && (e <=? now)) eqn:Hfire.
    + destruct Hstep as (Hq & Hb & Hr).
      destruct (triggers_idle evs _ Hwf' Hq Hrest) as (I1 & I2 & I3 & I4).
      rewrite Hq, I2, I3, I4, Hb, Hr. repeat split; assumption || reflexivity.
    + destruct Hstep as (Hq & He' & Hlt & Hb).
      assert (Hex' : Exists (fun x => e <= fst x
                                      /\ calls_tick (dispatch now ev p) (snd x)
                                         = true) evs).
      { inversion Hex as [x l [Hle Hct] | x l Htl]; subst; cbn [fst snd] in *.
        - rewrite Hct in Hfire. cbn in Hfire.
          destruct (Z.leb_spec e now); [discriminate | lia].
        - eapply Exists_impl; [|exact Htl].
          intros [now' ev'] [Hle Hct]. split; [exact Hle|].
          cbn [snd] in *. unfold calls_tick in *.
          rewrite Hlt, Hq, Hrun in *. exact Hct. }
      destruct (IH _ Hwf' Hq He' Hrest Hex') as (I1 & I2 & I3 & I4).
      rewrite Hq, I2, I3, I4, Hb, Hd. repeat split; assumption || reflexivity.
Qed.

(** The run the timer is built for: 600 s, the host suspended for all of
    it, one tick on waking up. *)
Example expiry_after_suspension :
  let p := run [(0, ToggleClick); (600000, IntervalFire 1)]
               (page0 (Some CtxRunning)) in
  isRunning (timer p) = false /\ bells p = 1%nat
  /\ remaining (timer p) = 600 /\ liveTimers p = []
  /\ toggleText p = "Start"%string.
Proof. vm_compute. repeat split; reflexivity. Qed.

(** ** The sibling [tick], called directly and redundantly *)

Module KeepAliveWavFacts.
Import KeepAliveWav.

Ltac unfold_tick :=
  cbv [tick playBell stopKeepAlive clearHeartbeat clearInterval updateDisplay
       newAudioContext Date_now update host
       bind ret get modify skip throw try_ignore exec
       with_timer set_remaining set_isRunning set_interval set_keepAliveEl
       set_bellEl set_display set_toggleText set_liveTimers set_clock
       log_call timer clock minutesText secondsText toggleText liveTimers
       audioCtor calls duration remaining endTime isRunning interval
       silentWavUrl keepAliveEl bellWavUrl bellEl bellReady
       rings can_ring fst snd andb negb Js.to_number].

Lemma tick_running (p : Page) (now e : Z) :
  isRunning (timer p) = true -> endTime (timer p) = Some e ->
  let q := exec tick (set_clock now p) in
  if e <=? now
  then isRunning (timer q) = false
       /\ remaining (timer q) = duration (timer p)
       /\ rings q = (rings p + if can_ring p then 1 else 0)%nat
  else isRunning (timer q) = true /\ endTime (timer q) = Some e
       /\ duration (timer q) = duration (timer p)
       /\ rings q = rings p /\ can_ring q = can_ring p.
Proof.
  destruct p as [[d r e' rn iv sw ke bw be br] clk mt st tg lt ctor cs].
  cbn [timer isRunning endTime]. intros -> [= ->].
  pose proof (ceil_div_pos (e - now)) as Hc.
  unfold_tick.
  destruct (Z.leb_spec e now);
    destruct (Z.leb_spec (Z.max 0 (Js.ceil_div (e - now) 1000)) 0);
    try lia; [|repeat split; reflexivity].
  destruct iv, ke, be, bw, ctor; cbn; repeat split; try reflexivity; lia.
Qed.

Lemma ticks_idle (nows : list Z) (p : Page) :
  isRunning (timer p) = false ->
  isRunning (timer (ticks nows p)) = false
  /\ tick_stops nows p = 0%nat
  /\ rings (ticks nows p) = rings p
  /\ remaining (timer (ticks nows p)) = remaining (timer p).
Proof.
  revert p. induction nows as [|now nows IH]; intros p Hrun.
  - repeat split; assumption || reflexivity.
  - cbn [ticks tick_stops].
    assert (Hq : exec tick (set_clock now p) = set_clock now p).
    { unfold exec. rewrite KeepAliveWav_tick_idle_noop; [reflexivity|].
      destruct p; exact Hrun. }
    rewrite Hq, Hrun.
    assert (Hrun' : isRunning (timer (set_clock now p)) = false)
      by (destruct p; exact Hrun).
    destruct (IH _ Hrun') as (I1 & I2 & I3 & I4).
    rewrite I2, I3, I4. destruct p; repeat split; assumption || reflexivity.
Qed.

(** On the variant, [tick] may be called directly at any host times, by
    any source, before and after the end: once one call comes at or past
    [endTime], the timer has left Running exactly once and [playBell] has
    rung once (if it has anything to ring with). *)
Lemma ticks_ring_once (nows : list Z) (p : Page) (e : Z) :
  isRunning (timer p) = true -> endTime (timer p) = Some e ->
  Exists (fun now => e <= now) nows ->
  isRunning (timer (ticks nows p)) = false
  /\ tick_stops nows p = 1%nat
  /\ rings (ticks nows p) = (rings p + if can_ring p then 1 else 0)%nat
  /\ remaining (timer (ticks nows p)) = duration (timer p).
Proof.
  revert p. induction nows as [|now nows IH]; intros p Hrun He Hex.
  - inversion Hex.
  - cbn [ticks tick_stops]. rewrite Hrun.
    pose proof (tick_running p now e Hrun He) as Hstep. cbv zeta in Hstep.
    destruct (Z.leb_spec e now).
    + destruct Hstep as (Hq & Hr & Hb).
      destruct (ticks_idle nows _ Hq) as (I1 & I2 & I3 & I4).
      rewrite Hq, I2, I3, I4, Hb, Hr. repeat split; assumption || reflexivity.
    + destruct Hstep as (Hq & He' & Hd & Hb & Hcr).
      assert (Hex' : Exists (fun now => e <= now) nows)
        by (inversion Hex; subst; [lia | assumption]).
      destruct (IH _ Hq He' Hex') as (I1 & I2 & I3 & I4).
      rewrite Hq, I2, I3, I4, Hb, Hcr, Hd.
      repeat split; assumption || reflexivity.
Qed.

End KeepAliveWavFacts.

(** ** What [remaining] shows *)

(** C2 as stated fails in its idle half: a pause leaves the timer idle
    with the time that was left, not with [duration]. *)
Lemma paused_remaining_not_duration :
  reachable paused_page
  /\ isRunning (timer paused_page) = false
  /\ remaining (timer paused_page) = 599
  /\ duration (timer paused_page) = 600
  /\ remaining (timer paused_page) <> duration (timer paused_page).
Proof.
  split; [apply reachable_run, reachable_load|].
  vm_compute. repeat split; congruence.
Qed.

(** C2, amended.  For every reachable page and every event at host time
    [now]:
    - while running, after an observation (an interval tick or a
      visibility change that calls [tick]) that leaves the timer running,
      and after a start, [remaining] is
      [max (0, ceil ((endTime - now) / 1000))];
    - the observation that ends the run leaves [remaining = duration];
    - a reset leaves the timer idle with [remaining = duration], whatever
      the page was;
    - on an idle timer an adjustment is either rejected, and changes
      nothing, or leaves [remaining = duration];
    - an idle timer with [remaining = duration] keeps that for as long as
      it is idle;
    - a pause leaves the timer idle, and is the one event after which an
      idle timer need not have [remaining = duration];
    - [remaining] is at least 1 after every event. *)
Theorem remaining_observed (p : Page) (now : Z) (ev : Event) :
  reachable p ->
  let q := dispatch now ev p in
  (isRunning (timer q) = true ->
   calls_tick p ev = true
   \/ (ev = ToggleClick /\ isRunning (timer p) = false) ->
   remaining (timer q) = time_left (endTime (timer q)) now)
  /\ (isRunning (timer p) = true -> calls_tick p ev = true ->
      isRunning (timer q) = false ->
      remaining (timer q) = duration (timer q))
  /\ (ev = ResetClick ->
      isRunning (timer q) = false
      /\ remaining (timer q) = duration (timer q))
  /\ (is_adjust ev = true -> isRunning (timer p) = false ->
      q = set_clock now p
      \/ (isRunning (timer q) = false
          /\ remaining (timer q) = duration (timer q)))
  /\ (isRunning (timer p) = false ->
      remaining (timer p) = duration (timer p) ->
      isRunning (timer q) = false ->
      remaining (timer q) = duration (timer q))
  /\ (ev = ToggleClick -> isRunning (timer p) = true ->
      isRunning (timer q) = false)
  /\ 1 <= remaining (timer q).
Proof.
  intros Hreach. pose proof (reachable_wf p Hreach) as H.
  pose proof (wf_remaining _ (wf_dispatch p now ev H)) as Hpos.
  cbv zeta.
  split; [|split; [|split; [|split; [|split; [|split; [|exact Hpos]]]]]];
    clear Hpos.
  - wf_cases p H; unfold calls_tick, time_left;
      destruct ev; js_run; cbn [Js.to_number] in *;
      intros Hq [Hc | [Hev Hidl]];
      try discriminate; try contradiction; try reflexivity; try lia.
    all: try (replace (now + r * 1000 - now) with (r * 1000) by lia;
              rewrite ceil_div_exact; lia).
    all: cbn in *; intuition congruence.
  - wf_cases p H; intros Hrn; try discriminate. unfold calls_tick.
    destruct ev; js_run; cbn [Js.to_number] in *; intros Hc Hq;
      try discriminate; try contradiction; reflexivity.
  - intros ->. wf_cases p H; js_run; split; reflexivity.
  - intros Hadj Hrn. wf_cases p H; cbn in Hrn; try discriminate.
    destruct ev; try discriminate; js_run;
      first [ left; reflexivity | right; split; reflexivity ].
  - intros Hrn Heq. wf_cases p H; cbn in Hrn, Heq; try discriminate.
    subst. destruct ev; js_run; cbn [Js.to_number] in *; intros Hq;
      try discriminate; try contradiction; reflexivity.
  - intros ->. wf_cases p H; intros Hrn; try discriminate.
    js_run; reflexivity.
Qed.

Lemma remaining_observed_witness :
  remaining (timer (dispatch 1000 (IntervalFire 1) started_page))
  = time_left
      (endTime (timer (dispatch 1000 (IntervalFire 1) started_page))) 1000
  /\ remaining (timer (dispatch 2000 ResetClick paused_page))
     = duration (timer (dispatch 2000 ResetClick paused_page))
  /\ remaining (timer (dispatch 2000 SecUpClick paused_page))
     = duration (timer (dispatch 2000 SecUpClick paused_page))
  /\ remaining (timer (dispatch 600000 (IntervalFire 1) started_page))
     = duration (timer (dispatch 600000 (IntervalFire 1) started_page)).
Proof.
  assert (Hs : reachable started_page)
    by apply reachable_dispatch, reachable_load.
  assert (Hp : reachable paused_page) by apply reachable_run, reachable_load.
  split; [|split; [|split]].
  - pose proof (remaining_observed started_page 1000 (IntervalFire 1) Hs)
      as H.
    cbv zeta in H. destruct H as (H & _).
    apply H; [reflexivity | left; reflexivity].
  - pose proof (remaining_observed paused_page 2000 ResetClick Hp) as H.
    cbv zeta in H. destruct H as (_ & _ & H & _).
    apply H. reflexivity.
  - pose proof (remaining_observed paused_page 2000 SecUpClick Hp) as H.
    cbv zeta in H. destruct H as (_ & _ & _ & H & _).
    destruct (H eq_refl eq_refl) as [E | [_ E]]; [|exact E].
    exfalso. revert E. vm_compute. discriminate.
  - pose proof (remaining_observed started_page 600000 (IntervalFire 1) Hs)
      as H.
    cbv zeta in H. destruct H as (_ & H & _).
    apply H; reflexivity.
Defined.

(** * Further properties of script.js *)

(** ** Counting calls *)

Lemma count_calls_cons (k : HostCall -> bool) (c : HostCall)
      (cs : list HostCall) :
  count_calls k (c :: cs) = ((if k c then 1 else 0) + count_calls k cs)%nat.
Proof. unfold count_calls. cbn [filter]. destruct (k c); reflexivity. Qed.

Lemma count_calls_app (k : HostCall -> bool) (a b : list HostCall) :
  count_calls k (a ++ b) = (count_calls k a + count_calls k b)%nat.
Proof. unfold count_calls. now rewrite filter_app, length_app. Qed.

Lemma count_calls_stops (k : HostCall -> bool) (os : list Oscillator) :
  (forall o, k (OscillatorStop o) = false) ->
  count_calls k (rev (map OscillatorStop os)) = 0%nat.
Proof.
  intros Hk. induction os as [|o os IH]; [reflexivity|].
  cbn [map rev]. rewrite count_calls_app, IH, count_calls_cons, Hk.
  reflexivity.
Qed.

Ltac count_kinds :=
  repeat (rewrite ?count_calls_cons, ?count_calls_app);
  repeat (rewrite count_calls_stops by reflexivity);
  cbn [is_new_context is_set_interval is_clear_interval is_keep_alive_start
       is_keep_alive_stop is_scheduled is_some Nat.add List.length];
  try reflexivity; try lia.

(** ** The display, and what the page holds of the host *)

Lemma display_ok_dispatch (p : Page) (now : Z) (ev : Event) :
  display_ok p -> display_ok (dispatch now ev p).
Proof.
  intros [Hm Hs Hl]. destruct_page p. cbn in Hm, Hs, Hl. subst.
  destruct ev; js_run; constructor; reflexivity.
Qed.

Lemma reachable_display_ok (p : Page) : reachable p -> display_ok p.
Proof.
  induction 1 as [ctor | p now ev _ IH].
  - constructor; reflexivity.
  - now apply display_ok_dispatch.
Qed.

Lemma tidy_dispatch (p : Page) (now : Z) (ev : Event) :
  wf p -> tidy p -> tidy (dispatch now ev p).
Proof.
  intros H [Hk Hs Hc Hi Hl]. wf_cases p H; cbn in Hk, Hs, Hc, Hi, Hl.
  all: destruct ka; try discriminate; destruct sb; try discriminate.
  all: destruct ev; js_run; try contradiction;
    constructor; cbn [timer calls liveTimers keepAliveAudio scheduledBell
                      audioContext isRunning is_some];
    try reflexivity; count_kinds;
    rewrite ?remove_single; unfold count_calls in *;
    cbn [List.length is_some] in *; lia.
Qed.

Lemma reachable_tidy (p : Page) : reachable p -> tidy p.
Proof.
  induction 1 as [ctor | p now ev Hp IH].
  - constructor; reflexivity.
  - apply tidy_dispatch; [now apply reachable_wf | exact IH].
Qed.

(** X1.  In every reachable page the minutes and seconds on display are
    those of [remaining], padded to two characters, and the button reads
    Pause exactly while the timer runs. *)
Theorem display_in_sync (p : Page) :
  reachable p ->
  minutesText p = Js.padStart 2 "0" (Js.toString (remaining (timer p) / 60))
  /\ secondsText p
     = Js.padStart 2 "0" (Js.toString (Z.rem (remaining (timer p)) 60))
  /\ toggleText p = if isRunning (timer p) then "Pause"%string
                    else "Start"%string.
Proof. intros H. apply reachable_display_ok in H. destruct H; auto. Qed.

Lemma display_in_sync_witness :
  minutesText paused_page = "09"%string
  /\ secondsText paused_page = "59"%string
  /\ toggleText paused_page = "Start"%string.
Proof.
  apply (display_in_sync paused_page). apply reachable_run, reachable_load.
Defined.

(** X2.  The handles the timer stores, in every reachable page.  Idle:
    no interval timer is live and the fields [interval],
    [keepAliveAudio] and [scheduledBell] are null.  Running: exactly one
    interval timer is live, the one whose handle is stored, and the other
    two fields are set.  This is about the fields: the oscillators of a
    run that has expired are forgotten by [tick], not stopped, so a null
    [scheduledBell] does not say that no tone is pending in the audio
    context. *)
Theorem idle_fields_cleared (p : Page) :
  reachable p ->
  (isRunning (timer p) = false ->
   liveTimers p = [] /\ interval (timer p) = None
   /\ keepAliveAudio (timer p) = None /\ scheduledBell (timer p) = None)
  /\ (isRunning (timer p) = true ->
      (exists h, interval (timer p) = Some h /\ liveTimers p = [h])
      /\ keepAliveAudio (timer p) <> None
      /\ scheduledBell (timer p) <> None).
Proof.
  intros Hp. pose proof (reachable_wf p Hp) as H.
  destruct (reachable_tidy p Hp) as [Hk Hs _ _ _].
  wf_cases p H; cbn in Hk, Hs; destruct ka, sb; try discriminate;
    split; intros Hrun; try discriminate; cbn;
    repeat split; try congruence.
  eexists; split; reflexivity.
Qed.

Lemma idle_fields_cleared_witness :
  liveTimers paused_page = [] /\ interval (timer paused_page) = None
  /\ keepAliveAudio (timer paused_page) = None
  /\ scheduledBell (timer paused_page) = None.
Proof.
  apply (idle_fields_cleared paused_page).
  - apply reachable_run, reachable_load.
  - reflexivity.
Defined.

(** X3.  The page makes at most one audio context, however often the
    timer is started and the page comes back into view: the log holds one
    [new AudioContext] if the timer has a context and none otherwise. *)
Theorem one_audio_context (p : Page) :
  reachable p ->
  count_calls is_new_context (calls p)
  = if is_some (audioContext (timer p)) then 1%nat else 0%nat.
Proof. intros Hp. apply (reachable_tidy p Hp). Qed.

Lemma one_audio_context_witness :
  count_calls is_new_context
    (calls (run [(0, ToggleClick); (10, ToggleClick); (20, ToggleClick);
                 (30, VisibilityChange true); (40, ResetClick);
                 (50, ToggleClick)] (page0 (Some CtxSuspended))))
  = 1%nat.
Proof.
  apply (one_audio_context
           (run [(0, ToggleClick); (10, ToggleClick); (20, ToggleClick);
                 (30, VisibilityChange true); (40, ResetClick);
                 (50, ToggleClick)] (page0 (Some CtxSuspended)))).
  apply reachable_run, reachable_load.
Defined.

(** X4.  Every interval timer and every keep-alive loop the page opened
    has been closed again, but for the one of the current run: in the log
    of a reachable page [setInterval] and [clearInterval], and the starts
    and stops of the loop, differ by one while running and are equal while
    idle. *)
Theorem opened_is_closed (p : Page) :
  reachable p ->
  count_calls is_set_interval (calls p)
  = (count_calls is_clear_interval (calls p)
     + if isRunning (timer p) then 1 else 0)%nat
  /\ count_calls is_keep_alive_start (calls p)
     = (count_calls is_keep_alive_stop (calls p)
        + if isRunning (timer p) then 1 else 0)%nat.
Proof.
  intros Hp. pose proof (reachable_wf p Hp) as H.
  destruct (reachable_tidy p Hp) as [Hk _ _ Hi Hl].
  rewrite Hi, Hl, Hk.
  wf_cases p H; cbn; split; reflexivity.
Qed.

Lemma opened_is_closed_witness :
  count_calls is_set_interval (calls paused_page)
  = (count_calls is_clear_interval (calls paused_page) + 0)%nat
  /\ count_calls is_keep_alive_start (calls paused_page)
     = (count_calls is_keep_alive_stop (calls paused_page) + 0)%nat.
Proof.
  apply (opened_is_closed paused_page). apply reachable_run, reachable_load.
Defined.

(** X5.  On every page a pre-scheduled bell is cancelled by [stopTimer],
    oscillator by oscillator, and by nothing in [tick]: the expiring tick
    forgets the oscillators without stopping them, and schedules none. *)
Theorem pause_cancels_scheduled_bell (p : Page) (os : list Oscillator) :
  scheduledBell (timer p) = Some os ->
  (forall o, In o os -> In (OscillatorStop o) (calls (exec stopTimer p)))
  /\ scheduledBell (timer (exec stopTimer p)) = None
  /\ (forall o, In (OscillatorStop o) (calls (exec tick p)) ->
      In (OscillatorStop o) (calls p))
  /\ count_calls is_scheduled (calls (exec tick p))
     = count_calls is_scheduled (calls p).
Proof.
  destruct_page p. cbn [timer scheduledBell]. intros ->.
  split; [|split; [|split]].
  - intros o Ho. js_run; cbn [calls];
      repeat (try (apply in_or_app; left; apply -> in_rev; now apply in_map);
              apply in_cons).
  - js_run; reflexivity.
  - intros o. js_run; cbn [Js.to_number]; cbn [In];
      intuition discriminate.
  - js_run; count_kinds.
Qed.

Lemma pause_cancels_scheduled_bell_witness :
  In (OscillatorStop (mkOsc 396 600100 604100))
     (calls (exec stopTimer started_page)).
Proof.
  apply (pause_cancels_scheduled_bell started_page
           (tones 600000 0 frequencies)); [reflexivity|].
  cbn. right. left. reflexivity.
Defined.

(** ** Stopping, resetting and starting *)

(** X6.  [stopTimer] is idempotent on every page: a second call changes
    nothing, not even the log. *)
Theorem stopTimer_idempotent (p : Page) :
  exec stopTimer (exec stopTimer p) = exec stopTimer p.
Proof. destruct_page p. js_run; reflexivity. Qed.

(** X7.  [resetTimer] is idempotent on every page. *)
Theorem resetTimer_idempotent (p : Page) :
  exec resetTimer (exec resetTimer p) = exec resetTimer p.
Proof. destruct_page p. js_run; reflexivity. Qed.

(** X8.  Where the timer has no audio context and the host has no
    [AudioContext] constructor, [startTimer] throws a TypeError before it
    writes anything: the page is as it was, the timer does not run. *)
Theorem startTimer_needs_audio (p : Page) :
  audioContext (timer p) = None -> audioCtor p = None ->
  startTimer p = (Thrown TypeError, p).
Proof. destruct_page p. cbn. intros -> ->. reflexivity. Qed.

Lemma startTimer_needs_audio_witness :
  startTimer (idle_with 300) = (Thrown TypeError, idle_with 300).
Proof.
  apply (startTimer_needs_audio (idle_with 300)); reflexivity.
Defined.

(** X9.  Where the timer has an audio context or the host can make one,
    [startTimer] returns with the timer running: the end time is the host
    time plus [remaining] seconds (so that the time left is [remaining]
    again), [remaining] and [duration] are as before, the new interval
    handle is stored and live, the keep-alive loop plays, the button reads
    Pause, and the bell is scheduled with its first tone at the end
    time. *)
Theorem startTimer_runs (p : Page) :
  audioContext (timer p) <> None \/ audioCtor p <> None ->
  let q := exec startTimer p in
  returns startTimer p = true
  /\ isRunning (timer q) = true
  /\ endTime (timer q) = Some (clock p + remaining (timer p) * 1000)
  /\ time_left (endTime (timer q)) (clock p) = Z.max 0 (remaining (timer p))
  /\ remaining (timer q) = remaining (timer p)
  /\ duration (timer q) = duration (timer p)
  /\ interval (timer q) = Some (nextHandle p)
  /\ liveTimers q = nextHandle p :: liveTimers p
  /\ is_some (keepAliveAudio (timer q)) = true
  /\ scheduledBell (timer q)
     = Some (tones (remaining (timer p) * 1000) 0 frequencies)
  /\ toggleText q = "Pause"%string.
Proof.
  destruct_page p.
  cbn [timer audioContext audioCtor clock remaining duration nextHandle
       liveTimers].
  intros Hac. unfold time_left.
  assert (Hx : Js.ceil_div (Js.to_number (Some (clk + r * 1000)) - clk) 1000
               = r).
  { cbn [Js.to_number].
    replace (clk + r * 1000 - clk) with (r * 1000) by lia.
    apply ceil_div_exact. }
  destruct ac as [[cst]|];
    [|destruct ctor as [cst|]; [|destruct Hac; congruence]];
    js_run; cbn [is_some]; rewrite ?Hx; repeat split; reflexivity.
Qed.

Lemma startTimer_runs_witness :
  isRunning (timer (exec startTimer (page0 (Some CtxSuspended)))) = true
  /\ endTime (timer (exec startTimer (page0 (Some CtxSuspended))))
     = Some 600000.
Proof.
  pose proof (startTimer_runs (page0 (Some CtxSuspended))) as H.
  cbv zeta in H.
  destruct H as (_ & H2 & H3 & _).
  - right. cbn. congruence.
  - split; [exact H2 | exact H3].
Defined.



(** ** Adjusting the minutes *)

(** X11.  While idle, with a duration from 0:05 to below 61:00: the
    minute increment adds 60 seconds below 60:00 and leaves the duration
    from 60:00 on; the minute decrement takes 60 seconds from 1:05 on and
    leaves the duration below (accepted without change under 1:00,
    rejected from 1:00 to 1:04, where it would leave less than 5
    seconds).  An accepted adjustment sets [remaining] to the new
    duration. *)
Theorem minutes_adjust (p : Page) :
  isRunning (timer p) = false ->
  5 <= duration (timer p) < 3660 ->
  let d := duration (timer p) in
  let up := exec (adjustTime "min" 1) p in
  let down := exec (adjustTime "min" (-1)) p in
  duration (timer up) = (if d <? 3600 then d + 60 else d)
  /\ remaining (timer up) = duration (timer up)
  /\ duration (timer down) = (if 65 <=? d then d - 60 else d)
  /\ (d < 60 \/ 65 <= d -> remaining (timer down) = duration (timer down))
  /\ (60 <= d < 65 -> down = p).
Proof.
  intros Hrun Hd. destruct_page p. cbn in Hrun, Hd. subst rn.
  cbn [timer duration].
  assert (Erem : Z.rem d 60 = d mod 60) by (apply Z.rem_mod_nonneg; lia).
  repeat split; intros; js_run; rewrite ?Erem in *;
    cbn [duration remaining timer];
    repeat match goal with
    | |- context [?a <? ?b] => destruct (Z.ltb_spec a b)
    | |- context [?a <=? ?b] => destruct (Z.leb_spec a b)
    end;
    try reflexivity; try (Z.to_euclidean_division_equations; lia).
Qed.

Lemma minutes_adjust_witness :
  duration (timer (exec (adjustTime "min" 1) (idle_with 3600))) = 3600
  /\ duration (timer (exec (adjustTime "min" (-1)) (idle_with 60))) = 60
  /\ exec (adjustTime "min" (-1)) (idle_with 60) = idle_with 60.
Proof.
  pose proof (minutes_adjust (idle_with 3600) eq_refl) as Hup.
  pose proof (minutes_adjust (idle_with 60) eq_refl) as Hdown.
  cbv zeta in Hup, Hdown.
  destruct Hup as (Hup & _); [cbn; lia|].
  destruct Hdown as (_ & _ & Hd & _ & Hsame); [cbn; lia|].
  split; [exact Hup | split; [exact Hd | apply Hsame; cbn; lia]].
Defined.

(** ** The countdown against the clock *)

Lemma ceil_div_bounds (a : Z) :
  a <= Js.ceil_div a 1000 * 1000 < a + 1000.
Proof.
  unfold Js.ceil_div.
  pose proof (Z.div_mod (- a) 1000 ltac:(lia)).
  pose proof (Z.mod_pos_bound (- a) 1000 ltac:(lia)).
  lia.
Qed.

(** X12.  A tick before the end time leaves the running flag and the end
    time alone and shows the time left rounded up to whole seconds: what
    it shows is never less than what is left and less than a second
    more. *)
Theorem tick_rounds_up (p : Page) (e : Z) :
  endTime (timer p) = Some e -> clock p < e ->
  let q := exec tick p in
  isRunning (timer q) = isRunning (timer p)
  /\ endTime (timer q) = Some e
  /\ e - clock p <= remaining (timer q) * 1000 < e - clock p + 1000.
Proof.
  destruct_page p. cbn [timer endTime clock]. intros -> Hlt.
  pose proof (ceil_div_bounds (e - clk)).
  js_run; cbn [Js.to_number] in *; cbn [timer isRunning endTime remaining];
    repeat split; try reflexivity; lia.
Qed.

Lemma tick_rounds_up_witness :
  remaining (timer (exec tick (set_clock 1500 started_page))) * 1000
  < 600000 - 1500 + 1000.
Proof.
  apply (tick_rounds_up (set_clock 1500 started_page) 600000);
    [reflexivity | cbn; lia].
Defined.

Lemma clock_dispatch (p : Page) (now : Z) (ev : Event) :
  clock (dispatch now ev p) = now.
Proof. destruct_page p. destruct ev; js_run; reflexivity. Qed.

Lemma on_time_dispatch (p : Page) (now : Z) (ev : Event) :
  wf p -> on_time p -> clock p <= now -> on_time (dispatch now ev p).
Proof.
  intros H [Hb He] Hnow. wf_cases p H; cbn in Hb, He, Hnow.
  - specialize (He eq_refl).
    pose proof (ceil_div_bounds (z - now)).
    destruct ev; js_run; cbn [Js.to_number] in *;
      constructor;
      cbn [timer remaining duration isRunning endTime clock Js.to_number];
      try discriminate; try lia.
  - clear He.
    destruct ev; js_run; try contradiction;
      constructor;
      cbn [timer remaining duration isRunning endTime clock Js.to_number];
      try discriminate; try lia.
Qed.

Lemma reachable_mono_reachable (p : Page) : reachable_mono p -> reachable p.
Proof. induction 1; [apply reachable_load | now apply reachable_dispatch]. Qed.

Lemma reachable_mono_on_time (p : Page) : reachable_mono p -> on_time p.
Proof.
  induction 1 as [ctor | p now ev Hp IH Hnow].
  - constructor; cbn; [lia | discriminate].
  - apply on_time_dispatch; auto using reachable_wf, reachable_mono_reachable.
Qed.

Lemma reachable_mono_run (evs : list (Z * Event)) (p : Page) :
  reachable_mono p ->
  StronglySorted Z.le (clock p :: map fst evs) ->
  reachable_mono (run evs p).
Proof.
  revert p. induction evs as [|[now ev] evs IH]; intros p Hp Hs; cbn [run].
  - exact Hp.
  - cbn [map fst] in Hs. inversion Hs as [|? ? Hs' Hall]; subst.
    inversion Hall as [|? ? Hle _]; subst.
    apply IH.
    + now apply mono_dispatch.
    + rewrite clock_dispatch. exact Hs'.
Qed.

(** X13.  With a host clock that never runs backwards, [remaining] stays
    between 1 and [duration] in every page the events lead to. *)
Theorem remaining_within_duration (p : Page) :
  reachable_mono p -> 1 <= remaining (timer p) <= duration (timer p).
Proof.
  intros H. split.
  - apply reachable_wf, reachable_mono_reachable, H.
  - apply reachable_mono_on_time, H.
Qed.

Lemma remaining_within_duration_witness :
  1 <= remaining (timer paused_page) <= duration (timer paused_page).
Proof.
  apply (remaining_within_duration paused_page).
  apply reachable_mono_run; [apply mono_load|].
  cbn. repeat constructor; lia.
Defined.

(** X14.  With such a clock the countdown never goes up within a run: an
    event that finds the timer running and leaves it running leaves
    [remaining] as it was or smaller, and the end time as it was. *)
Theorem countdown_never_rises (p : Page) (now : Z) (ev : Event) :
  reachable_mono p -> clock p <= now ->
  isRunning (timer p) = true ->
  isRunning (timer (dispatch now ev p)) = true ->
  remaining (timer (dispatch now ev p)) <= remaining (timer p)
  /\ endTime (timer (dispatch now ev p)) = endTime (timer p).
Proof.
  intros Hm Hnow Hrun.
  pose proof (reachable_wf p (reachable_mono_reachable p Hm)) as H.
  destruct (reachable_mono_on_time p Hm) as [Hb He].
  specialize (He Hrun).
  wf_cases p H; cbn in Hb, He, Hnow, Hrun; try discriminate.
  pose proof (ceil_div_bounds (z - now)).
  destruct ev; js_run; cbn [Js.to_number] in *;
    cbn [timer remaining isRunning endTime]; intros Hq;
    try discriminate; split; try reflexivity; try lia.
Qed.

Lemma countdown_never_rises_witness :
  remaining (timer (dispatch 2500 (VisibilityChange true) started_page))
  <= remaining (timer started_page).
Proof.
  apply (countdown_never_rises started_page 2500 (VisibilityChange true)).
  - apply (mono_dispatch (page0 (Some CtxRunning)) 0 ToggleClick);
      [apply mono_load | cbn; lia].
  - cbn. lia.
  - reflexivity.
  - reflexivity.
Defined.

Lemma pad2_length_nat (k : nat) :
  (k < 100)%nat ->
  String.length (Js.padStart 2 "0" (Js.toString (Z.of_nat k))) = 2%nat.
Proof.
  intros Hk.
  assert (G : forallb
                (fun k => Nat.eqb (String.length
                                     (Js.padStart 2 "0"
                                        (Js.toString (Z.of_nat k)))) 2)
                (seq 0 100) = true) by (vm_compute; reflexivity).
  rewrite forallb_forall in G.
  apply Nat.eqb_eq, G, in_seq. lia.
Qed.

Lemma pad2_length (n : Z) :
  0 <= n < 100 -> String.length (Js.padStart 2 "0" (Js.toString n)) = 2%nat.
Proof.
  intros Hn. rewrite <- (Z2Nat.id n) by lia. apply pad2_length_nat. lia.
Qed.

(** X15.  With such a clock the display always has two characters for the
    minutes and two for the seconds: the minutes never pass 60. *)
Theorem display_two_digits (p : Page) :
  reachable_mono p ->
  String.length (minutesText p) = 2%nat
  /\ String.length (secondsText p) = 2%nat.
Proof.
  intros Hm. pose proof (reachable_mono_reachable p Hm) as Hp.
  destruct (reachable_display_ok p Hp) as [-> -> _].
  pose proof (reachable_mono_on_time p Hm) as [Hb _].
  pose proof (reachable_wf p Hp) as [Hd _ Hr _ _ _].
  unfold minutes_of, seconds_of.
  rewrite Z.rem_mod_nonneg by lia.
  split; apply pad2_length; Z.to_euclidean_division_equations; lia.
Qed.

Lemma display_two_digits_witness :
  String.length (minutesText paused_page) = 2%nat
  /\ String.length (secondsText paused_page) = 2%nat.
Proof.
  apply (display_two_digits paused_page).
  apply reachable_mono_run; [apply mono_load|].
  cbn. repeat constructor; lia.
Defined.

(** ** A whole run: the bell is requested twice *)

Lemma tone_groups_split (p : Page) :
  tone_groups p = (bells p + scheduled_bells p)%nat.
Proof.
  unfold tone_groups, bells, scheduled_bells, bell_requests, count_calls.
  induction (calls p) as [|c cs IH]; [reflexivity|].
  destruct c; cbn [filter is_tone_group is_bell is_scheduled List.length];
    lia.
Qed.

Ltac count_tones :=
  unfold scheduled_bells, oscillator_stops;
  cbn [calls];
  repeat (rewrite ?count_calls_cons, ?count_calls_app);
  cbn [is_scheduled is_oscillator_stop Nat.add];
  try reflexivity; try lia.

(** No trigger schedules a bell or stops a scheduled one. *)
Lemma trigger_keeps_schedule (p : Page) (now : Z) (ev : Event) :
  wf p -> is_trigger ev = true ->
  scheduled_bells (dispatch now ev p) = scheduled_bells p
  /\ oscillator_stops (dispatch now ev p) = oscillator_stops p.
Proof.
  intros H Htr. wf_cases p H;
    destruct ev; try discriminate; js_run; try contradiction;
    split; count_tones.
Qed.

Lemma triggers_keep_schedule (evs : list (Z * Event)) (p : Page) :
  wf p -> Forall (fun x => is_trigger (snd x) = true) evs ->
  scheduled_bells (run evs p) = scheduled_bells p
  /\ oscillator_stops (run evs p) = oscillator_stops p.
Proof.
  revert p. induction evs as [|[now ev] evs IH]; intros p Hwf Hall.
  - split; reflexivity.
  - inversion Hall as [|x l Hev Hrest]; subst. cbn [snd] in Hev.
    destruct (trigger_keeps_schedule p now ev Hwf Hev) as (Hs & Ho).
    destruct (IH _ (wf_dispatch p now ev Hwf) Hrest) as (IHs & IHo).
    cbn [run]. rewrite IHs, IHo, Hs, Ho. split; reflexivity.
Qed.

(** The start click on an idle page that can have audio: the run begins,
    one bell is scheduled, none is rung or stopped. *)
Lemma start_schedules (p : Page) (now : Z) :
  wf p -> tidy p -> isRunning (timer p) = false ->
  audioContext (timer p) <> None \/ audioCtor p <> None ->
  let q := dispatch now ToggleClick p in
  isRunning (timer q) = true
  /\ endTime (timer q) = Some (now + remaining (timer p) * 1000)
  /\ liveTimers q = [nextHandle p]
  /\ duration (timer q) = duration (timer p)
  /\ bells q = bells p
  /\ scheduled_bells q = S (scheduled_bells p)
  /\ oscillator_stops q = oscillator_stops p.
Proof.
  intros H [Hk Hs _ _ _] Hrun Hau.
  wf_cases p H; cbn in Hrun, Hk, Hs, Hau; try discriminate.
  destruct ka; try discriminate. destruct sb; try discriminate.
  destruct ac as [[cst]|]; [|destruct ctor; [|destruct Hau; congruence]].
  all: js_run; repeat split; try count_bells; count_tones.
Qed.

(** C1 as stated fails in its second half.  The run of 10:00 that is left
    in the background until 11:40 ends once, and asks for the bell twice:
    the tones [startTimer] scheduled for the end time, which nothing
    stops, and the tones of [playBellNow] when the late [tick] finds the
    time over.  On an audio context that kept running they sound at
    10:00 and again at 11:40. *)
Lemma run_rings_twice :
  let p := page0 (Some CtxRunning) in
  let q := run late_return p in
  isRunning (timer q) = false
  /\ stops late_return p = 1%nat
  /\ timeline late_return p
     = [(0, NewAudioContext); (0, KeepAliveStart);
        (0, ScheduledTones (tones 600000 0 frequencies));
        (0, SetInterval 1%positive); (700000, ClearInterval 1%positive);
        (700000, KeepAliveStop);
        (700000, BellTones (tones 0 0 frequencies))]
  /\ tone_groups q = 2%nat
  /\ oscillator_stops q = 0%nat
  /\ flat_map sounds (timeline late_return p)
     = [(600000, 604000); (600100, 604100); (600200, 604200);
        (700000, 704000); (700100, 704100); (700200, 704200)].
Proof. vm_compute. repeat split; reflexivity. Qed.

(** C1, amended.  A run of script.js: the start click at host time [t0]
    on a reachable idle page that can have audio, followed by any
    sequence of trigger events (interval callbacks, visibility changes,
    changes of the audio state) at any host times, so with as many ticks
    skipped as one likes.  If one of them calls [tick] at or past the end
    time, then along the whole run the timer leaves Running exactly once
    and [remaining] ends reset to [duration]; [playBellNow] makes exactly
    one request for the bell, the fallback of the expiring [tick]; and
    the bell [startTimer] scheduled for the end time is the one scheduled
    in the run and is not stopped.  The run asks for the tones of the
    bell twice. *)
Theorem run_requests_bell_twice (p : Page) (t0 : Z)
        (evs : list (Z * Event)) :
  reachable p ->
  isRunning (timer p) = false ->
  audioContext (timer p) <> None \/ audioCtor p <> None ->
  Forall (fun x => is_trigger (snd x) = true) evs ->
  Exists (fun x => t0 + remaining (timer p) * 1000 <= fst x
                   /\ (snd x = IntervalFire (nextHandle p)
                       \/ snd x = VisibilityChange true)) evs ->
  let q := run ((t0, ToggleClick) :: evs) p in
  isRunning (timer q) = false
  /\ stops ((t0, ToggleClick) :: evs) p = 1%nat
  /\ remaining (timer q) = duration (timer p)
  /\ bells q = S (bells p)
  /\ scheduled_bells q = S (scheduled_bells p)
  /\ oscillator_stops q = oscillator_stops p
  /\ tone_groups q = (tone_groups p + 2)%nat.
Proof.
  intros Hp Hrun Hau Hall Hex. cbv zeta.
  pose proof (reachable_wf p Hp) as Hwf.
  pose proof (reachable_tidy p Hp) as Htidy.
  destruct (start_schedules p t0 Hwf Htidy Hrun Hau)
    as (S1 & S2 & S3 & S4 & S5 & S6 & S7).
  pose proof (wf_dispatch p t0 ToggleClick Hwf) as Hwf1.
  set (p1 := dispatch t0 ToggleClick p) in *.
  assert (Hex1 : Exists (fun x => t0 + remaining (timer p) * 1000 <= fst x
                                  /\ calls_tick p1 (snd x) = true) evs).
  { eapply Exists_impl; [|exact Hex].
    intros [now ev] [Hle Hev]. split; [exact Hle|]. cbn [snd] in *.
    unfold calls_tick. rewrite S3, S1.
    destruct Hev as [-> | ->]; [|reflexivity].
    destruct (in_dec Pos.eq_dec (nextHandle p) [nextHandle p]) as [|Hn];
      [reflexivity | exfalso; apply Hn; now left]. }
  destruct (triggers_running evs p1 _ Hwf1 S1 S2 Hall Hex1)
    as (R1 & R2 & R3 & R4).
  destruct (triggers_keep_schedule evs p1 Hwf1 Hall) as (K1 & K2).
  cbn [run stops]. fold p1. rewrite Hrun, S1. cbn [andb].
  rewrite !tone_groups_split, R3, K1, K2, S5, S6, S7, R4, S4, R2.
  repeat split; try assumption; try reflexivity; lia.
Qed.

Lemma run_requests_bell_twice_witness :
  let p := page0 (Some CtxRunning) in
  let evs := [(1000, IntervalFire 1%positive);
              (5000, VisibilityChange false);
              (700000, VisibilityChange true);
              (700001, IntervalFire 1%positive);
              (700002, AudioStateChange CtxSuspended);
              (700003, VisibilityChange true)] in
  isRunning (timer (run ((0, ToggleClick) :: evs) p)) = false
  /\ stops ((0, ToggleClick) :: evs) p = 1%nat
  /\ bells (run ((0, ToggleClick) :: evs) p) = 1%nat
  /\ scheduled_bells (run ((0, ToggleClick) :: evs) p) = 1%nat
  /\ tone_groups (run ((0, ToggleClick) :: evs) p) = 2%nat.
Proof.
  cbv zeta.
  pose proof (run_requests_bell_twice (page0 (Some CtxRunning)) 0
                [(1000, IntervalFire 1%positive);
                 (5000, VisibilityChange false);
                 (700000, VisibilityChange true);
                 (700001, IntervalFire 1%positive);
                 (700002, AudioStateChange CtxSuspended);
                 (700003, VisibilityChange true)]) as H.
  cbv zeta in H.
  destruct H as (H1 & H2 & _ & H4 & H5 & _ & H7).
  - apply reachable_load.
  - reflexivity.
  - right. vm_compute. congruence.
  - repeat constructor.
  - apply Exists_cons_tl, Exists_cons_tl, Exists_cons_hd.
    split; [vm_compute; congruence | right; reflexivity].
  - repeat split; assumption.
Defined.

(** * Further properties of the sibling versions *)

(** ** The [stopTimer] of the baked-WAV version (part_000 313-322, 376-388) *)

Ltac baked_unfold :=
  cbv [BakedWav.stopTimer BakedWav.cleanupAudio BakedWav.clearInterval
       BakedWav.update BakedWav.host BakedWav.Date_now
       BakedWav.with_timer BakedWav.set_remaining BakedWav.set_endTime
       BakedWav.set_isRunning BakedWav.set_interval BakedWav.set_timerAudio
       BakedWav.set_timerAudioUrl BakedWav.set_toggleText
       BakedWav.set_liveTimers BakedWav.log_call
       BakedWav.timer BakedWav.clock BakedWav.toggleText BakedWav.liveTimers
       BakedWav.calls BakedWav.duration BakedWav.remaining BakedWav.endTime
       BakedWav.isRunning BakedWav.interval BakedWav.timerAudio
       BakedWav.timerAudioUrl
       exec returns bind ret get modify skip fst snd andb negb
       Js.truthy Js.to_number].

(** X16.  The [stopTimer] that recomputes is idempotent all the same: the
    second call finds the timer idle and recomputes nothing. *)
Theorem BakedWav_stopTimer_idempotent (p : BakedWav.Page) :
  exec BakedWav.stopTimer (exec BakedWav.stopTimer p)
  = exec BakedWav.stopTimer p.
Proof.
  destruct p as [[d r e rn iv ta tu] clk tg lt cs].
  baked_unfold.
  destruct rn, e as [e|], iv, ta, tu; try destruct (Z.eqb_spec e 0);
    reflexivity.
Qed.

(** X17.  Pausing a running timer before its end keeps the time left
    rounded up to whole seconds, so a pause never loses time and gains
    less than a second; pausing at or after the end, before any tick has
    seen it, keeps 0. *)
Theorem BakedWav_pause_rounds_up (p : BakedWav.Page) (e : Z) :
  BakedWav.isRunning (BakedWav.timer p) = true ->
  BakedWav.endTime (BakedWav.timer p) = Some e -> e <> 0 ->
  let r := BakedWav.remaining (BakedWav.timer (exec BakedWav.stopTimer p)) in
  (BakedWav.clock p < e ->
   e - BakedWav.clock p <= r * 1000 < e - BakedWav.clock p + 1000)
  /\ (e <= BakedWav.clock p -> r = 0).
Proof.
  destruct p as [[d r e' rn iv ta tu] clk tg lt cs]. cbn.
  intros -> [= ->] He.
  pose proof (ceil_div_bounds (e - clk)).
  baked_unfold.
  destruct (Z.eqb_spec e 0); [congruence|].
  destruct iv, ta, tu; cbn; split; intros; lia.
Qed.

Lemma BakedWav_pause_rounds_up_witness :
  BakedWav.remaining
    (BakedWav.timer (exec BakedWav.stopTimer BakedWav.running_page)) * 1000
  < 600000 - 2500 + 1000.
Proof.
  pose proof (BakedWav_pause_rounds_up BakedWav.running_page 600000
                eq_refl eq_refl) as H.
  cbv zeta in H. destruct H as (H & _); [lia|].
  apply H. cbn. lia.
Defined.

(** X18.  [stopTimer] never throws and lets go of everything the run
    held: the audio element is paused and dropped, the blob URL revoked
    and dropped, the interval cleared and no longer live. *)
Theorem BakedWav_stop_releases_audio (p : BakedWav.Page) :
  let q := exec BakedWav.stopTimer p in
  returns BakedWav.stopTimer p = true
  /\ BakedWav.timerAudio (BakedWav.timer q) = None
  /\ BakedWav.timerAudioUrl (BakedWav.timer q) = None
  /\ BakedWav.interval (BakedWav.timer q) = None
  /\ (forall el, BakedWav.timerAudio (BakedWav.timer p) = Some el ->
      In (ElementPause (src el)) (BakedWav.calls q))
  /\ (forall url, BakedWav.timerAudioUrl (BakedWav.timer p) = Some url ->
      In (RevokeObjectURL url) (BakedWav.calls q))
  /\ (forall h, BakedWav.interval (BakedWav.timer p) = Some h ->
      In (ClearInterval h) (BakedWav.calls q)
      /\ ~ In h (BakedWav.liveTimers q)).
Proof.
  destruct p as [[d r e rn iv ta tu] clk tg lt cs].
  baked_unfold.
  destruct rn, e as [e|], iv, ta, tu; try destruct (Z.eqb_spec e 0);
    repeat split; intros; try discriminate;
    try match goal with H : Some _ = Some _ |- _ => injection H as <- end;
    cbn [In]; auto 6; try apply remove_In.
Qed.

Lemma BakedWav_stop_releases_audio_witness :
  In (RevokeObjectURL "blob:timer")
     (BakedWav.calls (exec BakedWav.stopTimer BakedWav.running_page))
  /\ ~ In 1%positive
         (BakedWav.liveTimers (exec BakedWav.stopTimer BakedWav.running_page)).
Proof.
  pose proof (BakedWav_stop_releases_audio BakedWav.running_page) as H.
  cbv zeta in H. destruct H as (_ & _ & _ & _ & _ & Hurl & Hiv).
  split; [apply Hurl; reflexivity | apply (Hiv 1%positive); reflexivity].
Defined.

(** ** The [playBell] of the keep-alive version (part_002 212-244) *)

Ltac kaw_unfold :=
  cbv [KeepAliveWav.playBell KeepAliveWav.newAudioContext
       KeepAliveWav.update KeepAliveWav.host
       KeepAliveWav.with_timer KeepAliveWav.set_bellEl KeepAliveWav.log_call
       KeepAliveWav.timer KeepAliveWav.clock KeepAliveWav.minutesText
       KeepAliveWav.secondsText KeepAliveWav.toggleText
       KeepAliveWav.liveTimers KeepAliveWav.audioCtor KeepAliveWav.calls
       KeepAliveWav.duration KeepAliveWav.remaining KeepAliveWav.endTime
       KeepAliveWav.isRunning KeepAliveWav.interval KeepAliveWav.silentWavUrl
       KeepAliveWav.keepAliveEl KeepAliveWav.bellWavUrl KeepAliveWav.bellEl
       KeepAliveWav.bellReady
       exec returns bind ret get modify skip throw try_ignore fst snd].

(** X19.  [playBell] never throws, whatever is missing.  It plays the
    pre-created element if there is one and drops it, so that no element
    is played twice; else it plays a new element on the rendered WAV;
    else it tries the Web Audio tones, and with no [AudioContext] either
    it leaves the page exactly as it was. *)
Theorem KeepAliveWav_playBell_falls_back (p : KeepAliveWav.Page) :
  let q := exec KeepAliveWav.playBell p in
  returns KeepAliveWav.playBell p = true
  /\ KeepAliveWav.bellEl (KeepAliveWav.timer q) = None
  /\ (forall el, KeepAliveWav.bellEl (KeepAliveWav.timer p) = Some el ->
      KeepAliveWav.calls q = ElementPlay (src el) :: KeepAliveWav.calls p)
  /\ (forall url, KeepAliveWav.bellEl (KeepAliveWav.timer p) = None ->
      KeepAliveWav.bellWavUrl (KeepAliveWav.timer p) = Some url ->
      KeepAliveWav.calls q = ElementPlay url :: KeepAliveWav.calls p)
  /\ (KeepAliveWav.bellEl (KeepAliveWav.timer p) = None ->
      KeepAliveWav.bellWavUrl (KeepAliveWav.timer p) = None ->
      KeepAliveWav.audioCtor p = None -> q = p).
Proof.
  destruct p as [[d r e rn iv sw ke bw be br] clk mt st tg lt ctor cs].
  kaw_unfold.
  destruct be, bw, ctor; repeat split; intros; try discriminate;
    try match goal with H : Some _ = Some _ |- _ => injection H as <- end;
    reflexivity.
Qed.

Lemma KeepAliveWav_playBell_falls_back_witness :
  exec KeepAliveWav.playBell
    (KeepAliveWav.mkPage
       (KeepAliveWav.mkTimer 600 600 None false None None None None None
                             false)
       0 "10" "00" "Start" [] None [])
  = KeepAliveWav.mkPage
      (KeepAliveWav.mkTimer 600 600 None false None None None None None false)
      0 "10" "00" "Start" [] None [].
Proof.
  apply (KeepAliveWav_playBell_falls_back
           (KeepAliveWav.mkPage
              (KeepAliveWav.mkTimer 600 600 None false None None None None
                                    None false)
              0 "10" "00" "Start" [] None [])); reflexivity.
Defined.

(** * The expandable truth cards *)

Module TruthCardFacts.
Import TruthCard.

Lemma onClick_consistent (c : Card) : consistent (onClick c).
Proof.
  unfold consistent, onClick. cbn.
  destruct (ariaExpanded c) as [v|]; [destruct (String.eqb v "true")|];
    cbn; auto.
Qed.

(** X20.  On a card whose attribute and label agree, two clicks bring
    back the card as it was: attribute, label and class. *)
Theorem card_double_click (c : Card) :
  consistent c -> onClick (onClick c) = c.
Proof.
  destruct c as [a t act]. unfold consistent. cbn.
  intros [[-> ->] | [-> ->]]; unfold onClick; cbn; now destruct act.
Qed.

Lemma card_double_click_witness :
  onClick (onClick (mkCard (Some "false"%string) "Go Deeper" false))
  = mkCard (Some "false"%string) "Go Deeper" false.
Proof.
  apply (card_double_click (mkCard (Some "false"%string) "Go Deeper" false)).
  right. split; reflexivity.
Defined.

(** X21.  From a collapsed card (not [active], [aria-expanded] anything
    but "true", even absent) the class, the attribute and the label move
    together: after [n] clicks the expanded part is [active] exactly when
    [n] is odd, and from the first click on the attribute is "true" and
    the label Show Less exactly then, "false" and Go Deeper otherwise. *)
Theorem card_after_clicks (n : nat) (c : Card) :
  ariaExpanded c <> Some "true"%string -> active c = false ->
  active (clicks n c) = Nat.odd n
  /\ ((0 < n)%nat ->
      ariaExpanded (clicks n c)
      = Some (if Nat.odd n then "true" else "false")%string
      /\ textContent (clicks n c)
         = (if Nat.odd n then "Show Less" else "Go Deeper")%string).
Proof.
  intros Ha Hact.
  assert (G : forall n,
             active (clicks n c) = Nat.odd n
             /\ (ariaExpanded (clicks n c) = Some "true"%string
                 <-> Nat.odd n = true)
             /\ ((0 < n)%nat -> consistent (clicks n c))).
  { induction n0 as [|k (IH1 & IH2 & IH3)].
    - cbn. repeat split; try assumption; try (intros; congruence); try lia.
    - cbn [clicks]. rewrite Nat.odd_succ, <- Nat.negb_odd.
      split; [cbn; now rewrite IH1|].
      split; [|intros _; apply onClick_consistent].
      unfold onClick. cbn [ariaExpanded].
      destruct (ariaExpanded (clicks k c)) as [v|] eqn:E.
      + destruct (String.eqb_spec v "true") as [->|Hne].
        * destruct IH2 as [IH2 _]. rewrite (IH2 eq_refl). cbn.
          split; congruence.
        * destruct (Nat.odd k) eqn:Ek.
          -- destruct IH2 as [_ IH2]. specialize (IH2 eq_refl). congruence.
          -- cbn. split; congruence.
      + destruct (Nat.odd k) eqn:Ek.
        * destruct IH2 as [_ IH2]. specialize (IH2 eq_refl). congruence.
        * cbn. split; congruence. }
  destruct (G n) as (G1 & G2 & G3). split; [exact G1|].
  intros Hn. destruct (G3 Hn) as [[E1 E2] | [E1 E2]]; rewrite E1, E2.
  - rewrite (proj1 G2 E1). split; reflexivity.
  - destruct (Nat.odd n); [|split; reflexivity].
    destruct G2 as [_ G2]. specialize (G2 eq_refl). congruence.
Qed.

Lemma card_after_clicks_witness :
  active (clicks 3 (mkCard None "Go Deeper" false)) = true
  /\ textContent (clicks 3 (mkCard None "Go Deeper" false))
     = "Show Less"%string.
Proof.
  pose proof (card_after_clicks 3 (mkCard None "Go Deeper" false)) as H.
  destruct H as (H1 & H2); [cbn; congruence | reflexivity |].
  split; [exact H1 | apply H2; lia].
Defined.

End TruthCardFacts.

(** * The first timer, which counts callbacks *)

Module CounterTimerFacts.
Import CounterTimer.

Ltac ct_step :=
  cbv [onInterval startTimer stopTimer adjustDuration playBell updateDisplay
       onToggleClick handler dispatch setInterval clearInterval
       newAudioContext update host
       bind ret get modify skip throw try_ignore exec returns
       with_timer set_duration set_remaining set_isRunning set_interval
       set_display set_toggleText set_liveTimers log_call
       timer minutesText secondsText toggleText liveTimers nextHandle
       audioCtor calls duration remaining isRunning interval bells
       fst snd andb negb orb].

Ltac ct_run := ct_step; repeat (break_var; ct_step).

Ltac ct_page p :=
  let d := fresh "d" in let r := fresh "r" in
  let rn := fresh "rn" in let iv := fresh "iv" in
  let mt := fresh "mt" in let st := fresh "st" in
  let tg := fresh "tg" in let lt := fresh "lt" in let nh := fresh "nh" in
  let ctor := fresh "ctor" in let cs := fresh "cs" in
  destruct p as [[d r rn iv] mt st tg lt nh ctor cs].

Ltac ct_wf p H :=
  let Hd := fresh "Hd" in let Hg := fresh "Hg" in
  let Ht := fresh "Ht" in let Hrun := fresh "Hrun" in
  let Hidle := fresh "Hidle" in
  destruct H as [Hd Hg Ht Hrun Hidle];
  ct_page p; cbn in Hd, Hg, Ht, Hrun, Hidle;
  match type of Hidle with
  | ?rn = false -> ?iv = None =>
      destruct rn;
      [ pose proof (Hrun eq_refl); clear Hrun Hidle;
        destruct iv; [|congruence]
      | pose proof (Hidle eq_refl); subst iv; clear Hrun Hidle ]
  end;
  cbn in Ht; subst.

Ltac ct_fields :=
  constructor;
  cbn [duration remaining isRunning interval timer liveTimers];
  try lia; try congruence; try tauto;
  try (intros; congruence);
  try apply remove_single;
  try (Z.to_euclidean_division_equations; lia).

Lemma ct_wf_dispatch (p : Page) (ev : Event) : wf p -> wf (dispatch ev p).
Proof. intros H. ct_wf p H; destruct ev; ct_run; ct_fields. Qed.

Lemma ct_reachable_wf (p : Page) : reachable p -> wf p.
Proof.
  induction 1 as [ctor | p ev _ IH].
  - unfold page0, timerState0. ct_fields.
  - now apply ct_wf_dispatch.
Qed.

Lemma ct_reachable_run (evs : list Event) (p : Page) :
  reachable p -> reachable (run evs p).
Proof.
  revert p. induction evs as [|ev evs IH]; intros p Hp; cbn [run].
  - exact Hp.
  - apply IH. now apply reachable_dispatch.
Qed.

(** X22.  In the first timer the buttons move the duration in steps of
    five minutes between 5:00 and 60:00 and never outside: the check
    against 1 and 60 minutes rejects what the step would take out of the
    range. *)
Theorem first_timer_duration_bounds (p : Page) :
  reachable p ->
  300 <= duration (timer p) <= 3600 /\ duration (timer p) mod 300 = 0.
Proof. intros H. apply ct_reachable_wf in H. split; apply H. Qed.

Lemma first_timer_duration_bounds_witness :
  300 <= duration (timer (run [DecreaseClick; DecreaseClick] (page0 None)))
  <= 3600.
Proof.
  apply (first_timer_duration_bounds
           (run [DecreaseClick; DecreaseClick] (page0 None))).
  apply ct_reachable_run, reachable_load.
Defined.

Lemma fire_step (p : Page) (h : positive) :
  wf p -> isRunning (timer p) = true -> interval (timer p) = Some h ->
  let q := dispatch (IntervalFire h) p in
  (1 < remaining (timer p) ->
   isRunning (timer q) = true /\ interval (timer q) = Some h
   /\ remaining (timer q) = remaining (timer p) - 1
   /\ duration (timer q) = duration (timer p)
   /\ audioCtor q = audioCtor p /\ bells q = bells p)
  /\ (remaining (timer p) <= 1 -> audioCtor p <> None ->
      isRunning (timer q) = false /\ remaining (timer q) = duration (timer p)
      /\ liveTimers q = [] /\ bells q = S (bells p)
      /\ toggleText q = "Start"%string)
  /\ (remaining (timer p) <= 1 -> audioCtor p = None ->
      isRunning (timer q) = false
      /\ remaining (timer q) = remaining (timer p) - 1
      /\ liveTimers q = [] /\ bells q = bells p
      /\ returns (handler (IntervalFire h)) p = false).
Proof.
  intros H Hrun Hiv. ct_wf p H; cbn in Hrun, Hiv; try discriminate.
  injection Hiv as ->.
  cbn [timer remaining duration audioCtor].
  repeat split; intros; ct_run; try contradiction; try lia;
    try (cbn in *; congruence); try apply remove_single;
    try count_bells; try (exfalso; cbn in *; tauto).
Qed.

Lemma countdown_steps (k : nat) (p : Page) (h : positive) :
  wf p -> isRunning (timer p) = true -> interval (timer p) = Some h ->
  1 <= remaining (timer p) ->
  (Z.of_nat k < remaining (timer p) ->
   isRunning (timer (fires k h p)) = true
   /\ remaining (timer (fires k h p)) = remaining (timer p) - Z.of_nat k
   /\ bells (fires k h p) = bells p)
  /\ (Z.of_nat k = remaining (timer p) -> audioCtor p <> None ->
      isRunning (timer (fires k h p)) = false
      /\ remaining (timer (fires k h p)) = duration (timer p)
      /\ liveTimers (fires k h p) = []
      /\ bells (fires k h p) = S (bells p)).
Proof.
  revert p. induction k as [|k IH]; intros p H Hrun Hiv Hr.
  - cbn [fires]. split; [intros _ | intros; lia].
    repeat split; [assumption | lia].
  - cbn [fires].
    destruct (fire_step p h H Hrun Hiv) as (Hgo & Hend & _).
    cbv zeta in Hgo, Hend.
    pose proof (ct_wf_dispatch p (IntervalFire h) H) as H'.
    destruct (Z_lt_le_dec 1 (remaining (timer p))) as [Hlt | Hle].
    + destruct (Hgo Hlt) as (Q1 & Q2 & Q3 & Q4 & Q5 & Q6).
      destruct (IH _ H' Q1 Q2 ltac:(lia)) as (IHa & IHb).
      split; intros Hk.
      * destruct IHa as (A1 & A2 & A3); [lia|].
        rewrite A1, A2, A3, Q3, Q6. repeat split; lia.
      * intros Hac. destruct IHb as (B1 & B2 & B3 & B4); [lia | congruence |].
        rewrite B1, B2, B3, B4, Q4, Q6. repeat split; reflexivity.
    + assert (Hk0 : remaining (timer p) = 1) by lia.
      split; intros Hk; [lia|]. intros Hac.
      assert (k = 0)%nat by lia. subst k. cbn [fires].
      destruct (Hend Hle Hac) as (E1 & E2 & E3 & E4 & _).
      repeat split; assumption.
Qed.

(** X23.  The first timer counts callbacks, not time.  From a reachable
    running page with [n >= 1] seconds left, fewer than [n] callbacks of
    its interval take one second each and ring nothing; exactly [n]
    callbacks, on a host with audio, stop the timer, clear its interval,
    ring the bell once and put [remaining] back to [duration]. *)
Theorem countdown_by_count (k : nat) (p : Page) (h : positive) :
  reachable p -> isRunning (timer p) = true -> interval (timer p) = Some h ->
  1 <= remaining (timer p) ->
  (Z.of_nat k < remaining (timer p) ->
   isRunning (timer (fires k h p)) = true
   /\ remaining (timer (fires k h p)) = remaining (timer p) - Z.of_nat k
   /\ bells (fires k h p) = bells p)
  /\ (Z.of_nat k = remaining (timer p) -> audioCtor p <> None ->
      isRunning (timer (fires k h p)) = false
      /\ remaining (timer (fires k h p)) = duration (timer p)
      /\ liveTimers (fires k h p) = []
      /\ bells (fires k h p) = S (bells p)).
Proof. intros Hp. apply countdown_steps. now apply ct_reachable_wf. Qed.

Lemma countdown_by_count_witness :
  remaining (timer (fires 4 1 (dispatch ToggleClick (page0 (Some CtxRunning)))))
  = 600 - 4.
Proof.
  pose proof (countdown_by_count 4
                (dispatch ToggleClick (page0 (Some CtxRunning))) 1) as H.
  destruct H as ((_ & H & _) & _).
  - apply reachable_dispatch, reachable_load.
  - reflexivity.
  - reflexivity.
  - cbn. lia.
  - cbn. lia.
  - exact H.
Defined.

(** X24.  On a host without an [AudioContext] constructor the callback
    that ends the run throws in [playBell], after [stopTimer]: the timer
    stops and its interval is cleared, but no bell is requested and
    [remaining] is not put back to [duration]; it stays at what the count
    reached. *)
Theorem expiry_without_audio (p : Page) (h : positive) :
  reachable p -> isRunning (timer p) = true -> interval (timer p) = Some h ->
  remaining (timer p) <= 1 -> audioCtor p = None ->
  let q := dispatch (IntervalFire h) p in
  returns (handler (IntervalFire h)) p = false
  /\ isRunning (timer q) = false
  /\ liveTimers q = []
  /\ remaining (timer q) = remaining (timer p) - 1
  /\ remaining (timer q) <> duration (timer q)
  /\ bells q = bells p.
Proof.
  intros Hp Hrun Hiv Hr Hac. pose proof (ct_reachable_wf p Hp) as H.
  destruct (fire_step p h H Hrun Hiv) as (_ & _ & Hno).
  destruct (Hno Hr Hac) as (N1 & N2 & N3 & N4 & N6).
  pose proof (wf_duration _ (ct_wf_dispatch p (IntervalFire h) H)).
  cbv zeta. repeat split; try assumption. lia.
Qed.

Lemma expiry_without_audio_witness :
  remaining (timer (dispatch (IntervalFire 1) last_second)) = 0
  /\ isRunning (timer (dispatch (IntervalFire 1) last_second)) = false.
Proof.
  pose proof (expiry_without_audio last_second 1) as H. cbv zeta in H.
  destruct H as (_ & H2 & _ & H4 & _).
  - apply ct_reachable_run, reachable_load.
  - vm_compute. reflexivity.
  - vm_compute. reflexivity.
  - vm_compute. congruence.
  - vm_compute. reflexivity.
  - split; [exact H4 | exact H2].
Defined.

Lemma counting_dispatch (p : Page) (ev : Event) :
  wf p -> counting p -> counting (dispatch ev p).
Proof.
  intros H [Hr Ha]. ct_wf p H; cbn in Hr, Ha;
    destruct ev; ct_run; try contradiction; try congruence;
    constructor; cbn [timer remaining duration audioCtor];
    try congruence; try lia.
Qed.

Lemma reachable_with_audio_reachable (p : Page) :
  reachable_with_audio p -> reachable p.
Proof. induction 1; [apply reachable_load | now apply reachable_dispatch]. Qed.

(** X25.  On a host with audio, [remaining] stays between 1 and
    [duration] in every page the first timer reaches (without audio it
    does not: see the expiry above, after which a new run counts on
    below zero). *)
Theorem remaining_counts_within_duration (p : Page) :
  reachable_with_audio p -> 1 <= remaining (timer p) <= duration (timer p).
Proof.
  intros Hp.
  enough (counting p) as [H _] by exact H.
  induction Hp as [st | p ev Hp IH].
  - constructor; cbn; [lia | congruence].
  - apply counting_dispatch; [|exact IH].
    apply ct_reachable_wf, reachable_with_audio_reachable, Hp.
Qed.

Lemma remaining_counts_within_duration_witness :
  1 <= remaining (timer (dispatch ToggleClick (page0 (Some CtxRunning))))
  <= duration (timer (dispatch ToggleClick (page0 (Some CtxRunning)))).
Proof.
  apply (remaining_counts_within_duration
           (dispatch ToggleClick (page0 (Some CtxRunning)))).
  apply audio_dispatch, audio_load.
Defined.

(** Without audio the count goes below zero on the next run. *)
Example negative_count_without_audio :
  remaining
    (timer (run [IntervalFire 1; ToggleClick; IntervalFire 2] last_second))
  = -1.
Proof. vm_compute. reflexivity. Qed.

End CounterTimerFacts.

(** * The WAV file with the bell baked in *)

Module WavFacts.
Import Wav.

Lemma skipn_zeros (k m : nat) : skipn k (repeat 0 m) = repeat 0 (m - k).
Proof.
  revert m. induction k as [|k IH]; intros m.
  - now rewrite Nat.sub_0_r.
  - destruct m as [|m]; [reflexivity|]. cbn. apply IH.
Qed.

Lemma store_next (w bs rest : list Z) :
  (List.length bs <= List.length rest)%nat ->
  store (Z.of_nat (List.length w)) bs (w ++ rest)
  = Some ((w ++ bs) ++ skipn (List.length bs) rest).
Proof.
  intros Hlen. unfold store, byteLength.
  rewrite length_app, Nat2Z.id.
  destruct (Z.leb_spec 0 (Z.of_nat (List.length w))); [|lia].
  destruct (Z.leb_spec (Z.of_nat (List.length w) + Z.of_nat (List.length bs))
                       (Z.of_nat (List.length w + List.length rest))); [|lia].
  cbn [andb]. f_equal.
  rewrite firstn_app, Nat.sub_diag, firstn_all, firstn_O, app_nil_r.
  rewrite skipn_app, skipn_all2 by lia.
  replace (List.length w + List.length bs - List.length w)%nat
    with (List.length bs) by lia.
  now rewrite <- app_assoc.
Qed.

Lemma store_zeros (off : Z) (w bs : list Z) (m : nat) :
  off = Z.of_nat (List.length w) -> (List.length bs <= m)%nat ->
  store off bs (w ++ repeat 0 m)
  = Some ((w ++ bs) ++ repeat 0 (m - List.length bs)).
Proof.
  intros -> Hlen. rewrite store_next by (rewrite repeat_length; exact Hlen).
  now rewrite skipn_zeros.
Qed.

Lemma wavWriteString_next (s : string) (w rest : list Z) :
  (List.length (charCodes s) <= List.length rest)%nat ->
  wavWriteString (Z.of_nat (List.length w)) s (w ++ rest)
  = Some ((w ++ charCodes s) ++ skipn (List.length (charCodes s)) rest).
Proof.
  revert w rest. induction s as [|c s IH]; intros w rest Hlen.
  - cbn. now rewrite app_nil_r.
  - cbn [wavWriteString charCodes List.length] in *.
    unfold setUint8. cbn [le_bytes].
    destruct rest as [|x rest]; [cbn in Hlen; lia|].
    rewrite store_next by (cbn; lia).
    cbn [andThen List.length skipn].
    replace (Z.of_nat (List.length w) + 1)
      with (Z.of_nat (List.length (w ++ [Z.of_nat (Ascii.nat_of_ascii c) mod 256])))
      by (rewrite length_app; cbn; lia).
    rewrite IH by (cbn in Hlen; lia).
    rewrite Z.mod_small.
    + now rewrite <- !app_assoc.
    + pose proof (Ascii.nat_ascii_bounded c). lia.
Qed.

Lemma wavWriteString_zeros (off : Z) (s : string) (w : list Z) (m : nat) :
  off = Z.of_nat (List.length w) -> (List.length (charCodes s) <= m)%nat ->
  wavWriteString off s (w ++ repeat 0 m)
  = Some ((w ++ charCodes s) ++ repeat 0 (m - List.length (charCodes s))).
Proof.
  intros -> Hlen.
  rewrite wavWriteString_next by (rewrite repeat_length; exact Hlen).
  now rewrite skipn_zeros.
Qed.

Lemma header_written (dataSize : Z) :
  0 <= dataSize -> 44 + dataSize <= maxByteLength ->
  ArrayBuffer (44 + dataSize)
  >>= wavWriteString 0 "RIFF"
  >>= setUint32 4 (36 + dataSize) true
  >>= wavWriteString 8 "WAVE"
  >>= wavWriteString 12 "fmt "
  >>= setUint32 16 16 true
  >>= setUint16 20 1 true
  >>= setUint16 22 1 true
  >>= setUint32 24 8000 true
  >>= setUint32 28 (8000 * 2) true
  >>= setUint16 32 2 true
  >>= setUint16 34 16 true
  >>= wavWriteString 36 "data"
  >>= setUint32 40 dataSize true
  = Some (header dataSize ++ repeat 0 (Z.to_nat dataSize)).
Proof.
  intros Hds Hmax. unfold ArrayBuffer.
  destruct (Z.ltb_spec (44 + dataSize) 0); [lia|].
  destruct (Z.ltb_spec maxByteLength (44 + dataSize)); [lia|].
  cbn [orb].
  replace (Z.to_nat (44 + dataSize)) with (44 + Z.to_nat dataSize)%nat by lia.
  set (n := Z.to_nat dataSize).
  change (repeat 0 (44 + n)) with ([] ++ repeat 0 (44 + n)).
  unfold setUint32, setUint16, bytes_of.
  cbn [andThen].
  repeat (first [ rewrite wavWriteString_zeros by (first [reflexivity | cbn; lia])
                | rewrite store_zeros by (first [reflexivity | cbn; lia]) ];
          cbn [andThen]).
  f_equal. unfold header. cbn [List.length charCodes le_bytes].
  replace (44 + n - 4 - 4 - 4 - 4 - 4 - 2 - 2 - 4 - 4 - 2 - 2 - 4 - 4)%nat with n by lia.
  rewrite <- !app_assoc. reflexivity.
Qed.


Lemma store_length (off : Z) (bs b b' : list Z) :
  store off bs b = Some b' -> List.length b' = List.length b.
Proof.
  unfold store, byteLength.
  destruct (Z.leb_spec 0 off); [|discriminate].
  destruct (Z.leb_spec (off + Z.of_nat (List.length bs))
                       (Z.of_nat (List.length b))); [|discriminate].
  cbn [andb]. intros [= <-].
  rewrite !length_app, length_firstn, length_skipn. lia.
Qed.

Lemma nth_store (off : Z) (bs b b' : list Z) (j : nat) :
  store off bs b = Some b' ->
  nth j b' 0
  = if (Z.to_nat off <=? j)%nat && (j <? Z.to_nat off + List.length bs)%nat
    then nth (j - Z.to_nat off) bs 0
    else nth j b 0.
Proof.
  unfold store, byteLength.
  destruct (Z.leb_spec 0 off); [|discriminate].
  destruct (Z.leb_spec (off + Z.of_nat (List.length bs))
                       (Z.of_nat (List.length b))); [|discriminate].
  cbn [andb]. intros [= <-].
  assert (Hf : List.length (firstn (Z.to_nat off) b) = Z.to_nat off)
    by (rewrite length_firstn; lia).
  destruct (Nat.leb_spec (Z.to_nat off) j);
    destruct (Nat.ltb_spec j (Z.to_nat off + List.length bs)); cbn [andb].
  - rewrite app_nth2 by lia. rewrite Hf. rewrite app_nth1 by lia. reflexivity.
  - rewrite app_nth2 by lia. rewrite Hf. rewrite app_nth2 by lia.
    rewrite nth_skipn. f_equal. lia.
  - rewrite app_nth1 by lia. rewrite nth_firstn.
    destruct (Nat.ltb_spec j (Z.to_nat off)); [reflexivity | lia].
  - lia.
Qed.

Lemma store_firstn (off : Z) (bs b b' : list Z) (n : nat) :
  store off bs b = Some b' -> (n <= Z.to_nat off)%nat ->
  firstn n b' = firstn n b.
Proof.
  unfold store, byteLength.
  destruct (Z.leb_spec 0 off); [|discriminate].
  destruct (Z.leb_spec (off + Z.of_nat (List.length bs))
                       (Z.of_nat (List.length b))); [|discriminate].
  cbn [andb]. intros [= <-] Hn.
  rewrite firstn_app, length_firstn.
  replace (n - Nat.min (Z.to_nat off) (List.length b))%nat with 0%nat by lia.
  rewrite firstn_O, app_nil_r, firstn_firstn. f_equal. lia.
Qed.

Lemma load_two (off : Z) (b : list Z) :
  0 <= off -> off + 2 <= byteLength b ->
  load off 2 b = Some [nth (Z.to_nat off) b 0; nth (S (Z.to_nat off)) b 0].
Proof.
  intros H0 H2. unfold load.
  destruct (Z.leb_spec 0 off); [|lia].
  destruct (Z.leb_spec (off + Z.of_nat 2) (byteLength b)); [|lia].
  cbn [andb]. f_equal. unfold byteLength in *.
  remember (skipn (Z.to_nat off) b) as t eqn:Et.
  assert (Hl : (2 <= List.length t)%nat) by (subst t; rewrite length_skipn; lia).
  assert (N0 : nth 0 t 0 = nth (Z.to_nat off) b 0)
    by (subst t; rewrite nth_skipn; f_equal; lia).
  assert (N1 : nth 1 t 0 = nth (S (Z.to_nat off)) b 0)
    by (subst t; rewrite nth_skipn; f_equal; lia).
  destruct t as [|x [|y t]]; cbn in Hl; try lia.
  cbn in N0, N1. subst. reflexivity.
Qed.

Lemma le_value_int16 (v : Z) :
  toInt16 (value_of (le_bytes 2 v) true) = toInt16 v.
Proof.
  unfold toInt16, value_of. cbn [le_bytes le_value].
  replace ((v mod 256 + 256 * ((v / 256) mod 256 + 256 * 0)) mod 65536)
    with (v mod 65536); [reflexivity|].
  Z.to_euclidean_division_equations. lia.
Qed.

(** Reading sample [k] after sample [i] was set. *)
Lemma getInt16_setInt16 (i k v : Z) (b b' : list Z) :
  0 <= i -> 0 <= k -> 44 + k * 2 + 2 <= byteLength b ->
  setInt16 (44 + i * 2) v true b = Some b' ->
  getInt16 (44 + k * 2) true b'
  = if k =? i then Some (toInt16 v) else getInt16 (44 + k * 2) true b.
Proof.
  intros Hi Hk Hb Hs. unfold setInt16, bytes_of in Hs.
  pose proof (store_length _ _ _ _ Hs) as Hl.
  unfold getInt16.
  rewrite (load_two _ b') by (unfold byteLength in *; lia).
  rewrite !(nth_store _ _ _ _ _ Hs).
  cbn [List.length le_bytes].
  destruct (Z.eqb_spec k i) as [-> | Hne].
  - destruct (Nat.leb_spec (Z.to_nat (44 + i * 2)) (Z.to_nat (44 + i * 2))); [|lia].
    destruct (Nat.ltb_spec (Z.to_nat (44 + i * 2)) (Z.to_nat (44 + i * 2) + 2)); [|lia].
    destruct (Nat.leb_spec (Z.to_nat (44 + i * 2)) (S (Z.to_nat (44 + i * 2)))); [|lia].
    destruct (Nat.ltb_spec (S (Z.to_nat (44 + i * 2))) (Z.to_nat (44 + i * 2) + 2)); [|lia].
    cbn [andb option_map].
    rewrite Nat.sub_diag.
    replace (S (Z.to_nat (44 + i * 2)) - Z.to_nat (44 + i * 2))%nat with 1%nat by lia.
    cbn [nth]. f_equal. apply (le_value_int16 v).
  - rewrite (load_two _ b) by lia.
    destruct (Nat.leb_spec (Z.to_nat (44 + i * 2)) (Z.to_nat (44 + k * 2)));
      destruct (Nat.ltb_spec (Z.to_nat (44 + k * 2)) (Z.to_nat (44 + i * 2) + 2));
      destruct (Nat.leb_spec (Z.to_nat (44 + i * 2)) (S (Z.to_nat (44 + k * 2))));
      destruct (Nat.ltb_spec (S (Z.to_nat (44 + k * 2))) (Z.to_nat (44 + i * 2) + 2));
      cbn [andb]; try lia; reflexivity.
Qed.

Lemma samples_written (f : Z -> Z) (idxs : list Z) (b : list Z) :
  (forall i, In i idxs -> 0 <= i /\ 44 + i * 2 + 2 <= byteLength b) ->
  exists b',
    fold_left (fun acc i => acc >>= setInt16 (44 + i * 2) (f i) true) idxs
              (Some b) = Some b'
    /\ byteLength b' = byteLength b
    /\ firstn 44 b' = firstn 44 b
    /\ forall k, 0 <= k -> 44 + k * 2 + 2 <= byteLength b ->
       getInt16 (44 + k * 2) true b'
       = if in_dec Z.eq_dec k idxs then Some (toInt16 (f k))
         else getInt16 (44 + k * 2) true b.
Proof.
  revert b. induction idxs as [|i idxs IH]; intros b Hin.
  - exists b. cbn. repeat split; reflexivity.
  - destruct (Hin i (or_introl eq_refl)) as [Hi0 Hi2].
    cbn [fold_left andThen].
    destruct (setInt16 (44 + i * 2) (f i) true b) as [b1|] eqn:Hs.
    2:{ unfold setInt16, store in Hs.
        destruct (Z.leb_spec 0 (44 + i * 2)); [|lia].
        destruct (Z.leb_spec (44 + i * 2 + Z.of_nat (List.length (bytes_of 2 (f i) true))) (byteLength b));
          [discriminate | cbn in *; lia]. }
    pose proof (store_length _ _ _ _ Hs) as Hl.
    assert (Hbl : byteLength b1 = byteLength b) by (unfold byteLength; lia).
    destruct (IH b1) as (b' & Hf & Hlen & Hhead & Hget).
    { intros j Hj. rewrite Hbl. apply Hin. now right. }
    exists b'. split; [exact Hf|]. split; [lia|]. split.
    + rewrite Hhead. apply (store_firstn _ _ _ _ _ Hs). lia.
    + intros k Hk0 Hk2. rewrite Hget by lia.
      rewrite (getInt16_setInt16 i k (f i) b b1) by assumption.
      destruct (in_dec Z.eq_dec k idxs) as [Hk | Hk];
        destruct (in_dec Z.eq_dec k (i :: idxs)) as [Hk' | Hk']; cbn [In] in *.
      * reflexivity.
      * tauto.
      * destruct Hk' as [-> | ?]; [|tauto]. now rewrite Z.eqb_refl.
      * destruct (Z.eqb_spec k i); [subst; tauto | reflexivity].
Qed.

Lemma in_range (start stop step i : Z) :
  0 < step ->
  In i (range start stop step)
  <-> start <= i < stop /\ (i - start) mod step = 0.
Proof.
  intros Hs. unfold range. rewrite in_map_iff. split.
  - intros (k & <- & Hk). apply in_seq in Hk.
    assert (Z.of_nat k < (stop - start + step - 1) / step) by lia.
    replace (start + Z.of_nat k * step - start) with (Z.of_nat k * step) by lia.
    rewrite Z.mod_mul by lia. split; [|reflexivity].
    assert (Z.of_nat k * step < stop - start); [|lia].
    Z.to_euclidean_division_equations. nia.
  - intros [[Hlo Hhi] Hm].
    exists (Z.to_nat ((i - start) / step)).
    pose proof (Z.div_mod (i - start) step ltac:(lia)) as Hdm.
    rewrite Hm in Hdm.
    assert (0 <= (i - start) / step) by (apply Z.div_pos; lia).
    split; [rewrite Z2Nat.id by lia; lia|].
    apply in_seq. split; [lia|]. cbn.
    apply Z2Nat.inj_lt; try lia.
    + apply Z.div_pos; lia.
    + Z.to_euclidean_division_equations. nia.
Qed.


Lemma getInt16_zeros (w : list Z) (n : nat) (k : Z) :
  List.length w = 44%nat -> 0 <= k -> k * 2 + 2 <= Z.of_nat n ->
  getInt16 (44 + k * 2) true (w ++ repeat 0 n) = Some 0.
Proof.
  intros Hw Hk Hn. unfold getInt16.
  rewrite load_two
    by (unfold byteLength; rewrite ?length_app, ?repeat_length; lia).
  rewrite !app_nth2 by lia.
  rewrite !nth_repeat. reflexivity.
Qed.

Lemma header_length (dataSize : Z) : List.length (header dataSize) = 44%nat.
Proof. reflexivity. Qed.

Section Created.

Variable bellSample : Z -> Z.

Lemma createTimerWav_spec (d : Z) :
  0 <= d -> 44 + 16000 * (d + 5) <= maxByteLength ->
  exists buf,
    createTimerWav bellSample d = Some buf
    /\ byteLength buf = 44 + 16000 * (d + 5)
    /\ firstn 44 buf = header (16000 * (d + 5))
    /\ forall k, 0 <= k < 8000 * (d + 5) ->
       getInt16 (44 + k * 2) true buf
       = Some (if k <? 8000 * d
               then (if k mod 2000 =? 0 then 1 else 0)
               else toInt16 (bellSample (k - 8000 * d))).
Proof.
  intros Hd Hmax. unfold createTimerWav. cbv zeta.
  rewrite header_written by lia.
  replace (8000 * (d + 5) * 2) with (16000 * (d + 5)) by lia.
  set (ds := 16000 * (d + 5)).
  set (H := header ds ++ repeat 0 (Z.to_nat ds)).
  assert (HH : byteLength H = 44 + ds).
  { unfold H, byteLength. rewrite length_app, repeat_length, header_length.
    lia. }
  cbn [andThen]. unfold for_range. cbv beta.
  destruct (samples_written (fun _ => 1) (range 0 (8000 * d) 2000) H)
    as (N & HN & HNlen & HNhead & HNget).
  { intros i Hi. apply in_range in Hi; lia. }
  cbv beta in HN. unfold Buffer in *. rewrite HN. cbn [andThen].
  destruct (samples_written (fun i => bellSample (i - 8000 * d))
                            (range (8000 * d) (8000 * (d + 5)) 1) N)
    as (B & HB & HBlen & HBhead & HBget).
  { intros i Hi. apply in_range in Hi; lia. }
  cbv beta in HB. unfold Buffer in *. rewrite HB.
  exists B. split; [reflexivity|]. split; [lia|]. split.
  - rewrite HBhead, HNhead. unfold H.
    rewrite firstn_app, header_length, Nat.sub_diag, firstn_O, app_nil_r.
    apply firstn_all2. rewrite header_length. lia.
  - intros k Hk. rewrite HBget by lia.
    destruct (in_dec Z.eq_dec k (range (8000 * d) (8000 * (d + 5)) 1))
      as [Hin | Hout].
    + apply in_range in Hin; [|lia].
      destruct (Z.ltb_spec k (8000 * d)); [lia | reflexivity].
    + assert (Hlt : k < 8000 * d).
      { destruct (Z_lt_le_dec k (8000 * d)) as [|Hge]; [assumption|].
        exfalso. apply Hout. apply in_range; [lia|].
        split; [lia|]. apply Z.mod_1_r. }
      destruct (Z.ltb_spec k (8000 * d)); [|lia].
      rewrite HNget by lia.
      destruct (in_dec Z.eq_dec k (range 0 (8000 * d) 2000)) as [Hn | Hn].
      * apply in_range in Hn; [|lia]. rewrite Z.sub_0_r in Hn.
        destruct Hn as [_ ->]. reflexivity.
      * destruct (Z.eqb_spec (k mod 2000) 0) as [E|E].
        -- exfalso. apply Hn. apply in_range; [lia|].
           rewrite Z.sub_0_r. lia.
        -- unfold H. apply getInt16_zeros; [apply header_length | lia | lia].
Qed.

End Created.

Lemma fold_none (body : Z -> Buffer -> option Buffer) (idxs : list Z) :
  fold_left (fun acc i => acc >>= body i) idxs None = None.
Proof. induction idxs as [|i idxs IH]; [reflexivity | exact IH]. Qed.

Lemma range_first (start stop : Z) :
  start < stop -> exists r, range start stop 1 = start :: r.
Proof.
  intros Hlt. unfold range.
  replace ((stop - start + 1 - 1) / 1) with (stop - start)
    by (rewrite Z.div_1_r; lia).
  destruct (Z.to_nat (stop - start)) as [|n] eqn:E; [lia|].
  cbn [seq map]. eexists. f_equal. lia.
Qed.

(** X29.  For a negative duration [createTimerWav] ends in a RangeError:
    below -5 seconds the buffer cannot be made, and from -5 on the first
    sample of the bell lies before the buffer. *)
Theorem createTimerWav_negative_throws (bellSample : Z -> Z) (d : Z) :
  d < 0 -> createTimerWav bellSample d = None.
Proof.
  intros Hd. unfold createTimerWav. cbv zeta.
  destruct (Z_lt_le_dec (d + 5) 0) as [Hlow | Hhigh].
  - unfold ArrayBuffer.
    destruct (Z.ltb_spec (44 + 8000 * (d + 5) * 2) 0); [|lia].
    reflexivity.
  - rewrite header_written by (unfold maxByteLength; lia).
    cbn [andThen]. unfold for_range.
    assert (Hr : range 0 (8000 * d) 2000 = []).
    { unfold range.
      replace (Z.to_nat ((8000 * d - 0 + 2000 - 1) / 2000)) with 0%nat;
        [reflexivity|].
      assert ((8000 * d - 0 + 2000 - 1) / 2000 <= 0); [|lia].
      Z.to_euclidean_division_equations. lia. }
    rewrite Hr. cbn [fold_left andThen].
    destruct (range_first (8000 * d) (8000 * (d + 5))) as (r & ->); [lia|].
    cbn [fold_left andThen].
    assert (E : forall v b, setInt16 (44 + 8000 * d * 2) v true b = None).
    { intros v b. unfold setInt16, store.
      destruct (Z.leb_spec 0 (44 + 8000 * d * 2)); [lia | reflexivity]. }
    rewrite E. apply fold_none.
Qed.


Lemma load_head (off : Z) (n : nat) (b hdr : list Z) :
  firstn 44 b = hdr -> (44 <= List.length b)%nat ->
  0 <= off -> (Z.to_nat off + n <= 44)%nat ->
  load off n b = Some (firstn n (skipn (Z.to_nat off) hdr)).
Proof.
  intros <- Hb H0 Hn. unfold load, byteLength.
  destruct (Z.leb_spec 0 off); [|lia].
  destruct (Z.leb_spec (off + Z.of_nat n) (Z.of_nat (List.length b))); [|lia].
  cbn [andb]. f_equal.
  rewrite skipn_firstn_comm, firstn_firstn. f_equal. lia.
Qed.

Lemma le_value_le_bytes4 (v : Z) :
  0 <= v < 4294967296 -> le_value (le_bytes 4 v) = v.
Proof.
  intros Hv. cbn [le_bytes le_value].
  Z.to_euclidean_division_equations. lia.
Qed.

Section Theorems.

Variable bellSample : Z -> Z.

(** X26.  When [createTimerWav] returns and what it returns, for a
    duration of 0 seconds or more: a buffer of 44 bytes of header and two
    bytes for each of the 8000 samples of every second of the duration and
    of the 5 seconds of the bell, as long as [new ArrayBuffer] takes that
    length; beyond [maxByteLength] the call ends in its RangeError. *)
Theorem createTimerWav_size (d : Z) :
  0 <= d ->
  (44 + 2 * (8000 * (d + 5)) <= maxByteLength ->
   exists buf,
     createTimerWav bellSample d = Some buf
     /\ byteLength buf = 44 + 2 * (8000 * (d + 5)))
  /\ (maxByteLength < 44 + 2 * (8000 * (d + 5)) ->
      createTimerWav bellSample d = None).
Proof.
  intros Hd. split; intros Hmax.
  - destruct (createTimerWav_spec bellSample d Hd) as (buf & E & L & _);
      [lia|].
    exists buf. split; [exact E | lia].
  - unfold createTimerWav. cbv zeta. unfold ArrayBuffer.
    destruct (Z.ltb_spec (44 + 8000 * (d + 5) * 2) 0); [lia|].
    destruct (Z.ltb_spec maxByteLength (44 + 8000 * (d + 5) * 2)); [|lia].
    reflexivity.
Qed.

(** X27.  The header [createTimerWav] writes is the one of a PCM file
    with one channel, 8000 samples a second and 16 bits a sample, and its
    two size fields agree with the buffer: the RIFF size is the length
    less 8, the data size the length less 44, which is the byte rate
    times the duration plus 5 seconds.  (Up to 268000 seconds, where the
    sizes still fit their 32 bits.) *)
Theorem createTimerWav_header (d : Z) :
  0 <= d <= 268000 ->
  exists buf,
    createTimerWav bellSample d = Some buf
    /\ firstn 44 buf = header (16000 * (d + 5))
    /\ getUint32 4 true buf = Some (byteLength buf - 8)
    /\ getUint32 40 true buf = Some (byteLength buf - 44)
    /\ getUint32 16 true buf = Some 16
    /\ getUint16 20 true buf = Some 1
    /\ getUint16 22 true buf = Some 1
    /\ getUint32 24 true buf = Some 8000
    /\ getUint32 28 true buf = Some 16000
    /\ getUint16 32 true buf = Some 2
    /\ getUint16 34 true buf = Some 16
    /\ byteLength buf - 44 = 16000 * (d + 5).
Proof.
  intros Hd.
  destruct (createTimerWav_spec bellSample d) as (buf & E & L & Hh & _);
    [lia | unfold maxByteLength; lia |].
  exists buf. split; [exact E|]. split; [exact Hh|].
  assert (Hlen : (44 <= List.length buf)%nat) by (unfold byteLength in L; lia).
  unfold getUint32, getUint16.
  rewrite !(load_head _ _ buf _ Hh Hlen) by (cbn; lia).
  cbn [Z.to_nat Pos.to_nat Pos.iter_op Nat.add header charCodes le_bytes app
       skipn firstn option_map value_of].
  rewrite L.
  repeat split; try reflexivity; try lia.
  - f_equal. change (le_value (le_bytes 4 (36 + 16000 * (d + 5))) = 44 + 16000 * (d + 5) - 8).
    rewrite le_value_le_bytes4; lia.
  - f_equal. change (le_value (le_bytes 4 (16000 * (d + 5))) = 44 + 16000 * (d + 5) - 44).
    rewrite le_value_le_bytes4; lia.
Qed.

(** X28.  In the file [createTimerWav] returns, the [d] seconds before
    the bell are silent but for one sample of value 1 every 2000 samples
    (a quarter of a second), and the bell starts exactly at sample
    [8000 * d]: its [n]-th sample is there, as a signed 16-bit number.
    (For every length [new ArrayBuffer] takes; beyond it nothing is
    returned.) *)
Theorem createTimerWav_samples (d : Z) :
  0 <= d -> 44 + 2 * (8000 * (d + 5)) <= maxByteLength ->
  exists buf,
    createTimerWav bellSample d = Some buf
    /\ (forall k, 0 <= k < 8000 * d ->
        getInt16 (44 + k * 2) true buf
        = Some (if k mod 2000 =? 0 then 1 else 0))
    /\ (forall n, 0 <= n < 8000 * 5 ->
        getInt16 (44 + (8000 * d + n) * 2) true buf
        = Some (toInt16 (bellSample n))).
Proof.
  intros Hd Hmax.
  destruct (createTimerWav_spec bellSample d Hd) as (buf & E & _ & _ & Hs);
    [lia|].
  exists buf. split; [exact E|]. split.
  - intros k Hk. rewrite Hs by lia.
    destruct (Z.ltb_spec k (8000 * d)); [reflexivity | lia].
  - intros n Hn. rewrite Hs by lia.
    destruct (Z.ltb_spec (8000 * d + n) (8000 * d)); [lia|].
    do 3 f_equal. lia.
Qed.

End Theorems.

Lemma createTimerWav_size_witness :
  (exists buf,
     createTimerWav (fun _ => 0) 600 = Some buf
     /\ byteLength buf = 44 + 2 * (8000 * (600 + 5)))
  /\ createTimerWav (fun _ => 0) 562949953417 = None.
Proof.
  split.
  - apply (createTimerWav_size (fun _ => 0) 600); [lia | vm_compute; congruence].
  - apply (createTimerWav_size (fun _ => 0) 562949953417);
      [lia | reflexivity].
Defined.

Lemma createTimerWav_header_witness :
  exists buf,
    createTimerWav (fun _ => 0) 600 = Some buf
    /\ getUint32 40 true buf = Some 9680000.
Proof.
  destruct (createTimerWav_header (fun _ => 0) 600) as (buf & E & _ & _ & D & _ & _ & _ & _ & _ & _ & _ & L);
    [lia|].
  exists buf. split; [exact E|]. rewrite D, L. reflexivity.
Defined.

Lemma createTimerWav_samples_witness :
  exists buf,
    createTimerWav (fun n => n) 600 = Some buf
    /\ getInt16 (44 + 4000 * 2) true buf = Some 1
    /\ getInt16 (44 + (8000 * 600 + 7) * 2) true buf = Some 7.
Proof.
  destruct (createTimerWav_samples (fun n => n) 600) as (buf & E & Hs & Hb);
    [lia | vm_compute; congruence |].
  exists buf. split; [exact E|]. split.
  - apply (Hs 4000). lia.
  - apply (Hb 7). lia.
Defined.

Lemma createTimerWav_negative_throws_witness :
  createTimerWav (fun _ => 0) (-1) = None.
Proof. apply (createTimerWav_negative_throws (fun _ => 0) (-1)). lia. Defined.

End WavFacts.
